(** * The RSS feed transformer of [src/rss.py]: a shallow embedding

    The development models [parse_rss_feed_data]: the per-entry identifier
    lookup, the choice of [matched_ticker_str], the filtering decision, the
    construction of the flat record and the order of the yielded records.

    Python values are embedded as a small tree type; a dictionary of the
    parsed feed keeps its insertion order (iteration over a dictionary yields
    its keys in that order), while the identifier mapping, which is only ever
    looked up, is a finite map. *)

From Stdlib Require Import String Ascii List.
From stdpp Require Import base option list strings gmap.

Set Warnings "-register-all".
Open Scope string_scope.

(** ** Python values and exceptions *)

(** The values [xmltodict.parse] produces: [None], strings, lists and
    (insertion-ordered) dictionaries with string keys. *)
Inductive value : Type :=
  | VNone : value
  | VStr (s : string) : value
  | VList (l : list value) : value
  | VDict (d : list (string * value)) : value.

(** The exceptions the transformer can raise. *)
Inductive exn : Type :=
  | KeyError
  | TypeError
  | AttributeError.

(** A computation that returns or raises. *)
Inductive result (A : Type) : Type :=
  | Ok (a : A)
  | Raise (e : exn).
Arguments Ok {A} a.
Arguments Raise {A} e.

#[global] Instance result_ret : MRet result := fun _ a => Ok a.

#[global] Instance result_bind : MBind result := fun _ _ k m =>
  match m with
  | Ok a => k a
  | Raise e => Raise e
  end.

(** [d.get(k)] on the key-value pairs of a dictionary: first binding of [k]. *)
Fixpoint assoc (k : string) (d : list (string * value)) : option value :=
  match d with
  | [] => None
  | (k', v) :: d' => if String.eqb k k' then Some v else assoc k d'
  end.

(** [v[k]]: subscription with a string key. *)
Definition getitem (v : value) (k : string) : result value :=
  match v with
  | VDict d => match assoc k d with
               | Some x => Ok x
               | None => Raise KeyError
               end
  | _ => Raise TypeError
  end.

(** [v.get(k)]: only dictionaries have the method. *)
Definition py_get (v : value) (k : string) : result value :=
  match v with
  | VDict d => Ok (default VNone (assoc k d))
  | _ => Raise AttributeError
  end.

(** The one-character strings of [s], as iterating a string yields them. *)
Fixpoint chars (s : string) : list value :=
  match s with
  | EmptyString => []
  | String c s' => VStr (String c EmptyString) :: chars s'
  end.

(** [for x in v]: the elements of a list, the keys of a dictionary, the
    characters of a string; [None] is not iterable. *)
Definition py_iter (v : value) : result (list value) :=
  match v with
  | VList l => Ok l
  | VDict d => Ok (map (fun kv => VStr (fst kv)) d)
  | VStr s => Ok (chars s)
  | VNone => Raise TypeError
  end.

(** Modelled from the spec: [safe_get] of [src/utils.py], which is not among
    the sources.  The spec describes a safe nested-path lookup over a tree of
    mappings in which any missing intermediate key yields a null value rather
    than an error. *)
Fixpoint safe_get (d : value) (keys : list string) : value :=
  match keys with
  | [] => d
  | k :: ks =>
      match d with
      | VDict kv => match assoc k kv with
                    | Some v => safe_get v ks
                    | None => VNone
                    end
      | _ => VNone
      end
  end.

(** ** Strings *)

Definition zero_char : ascii := "0"%char.

(** [s.lstrip("0")] *)
Fixpoint lstrip0 (s : string) : string :=
  match s with
  | String c s' => if Ascii.eqb c zero_char then lstrip0 s' else s
  | EmptyString => EmptyString
  end.

(** [sep.join(l)] on a list of strings. *)
Definition join (sep : string) (l : list string) : string := String.concat sep l.

(** [a or b] on strings: the empty string is falsy. *)
Definition str_or (a b : string) : string :=
  if String.eqb a "" then b else a.

(** [a or b] where [a] may be [None]. *)
Definition opt_or (a : option string) (b : string) : string :=
  match a with
  | Some s => str_or s b
  | None => b
  end.

Definition UNKNOWN_TICKER_PLACEHOLDER : string := "UNKNOWN".

(** ** The identifier lookup and the matched ticker *)

(** [cik.lstrip("0") if isinstance(cik, str) else None] *)
Definition trim_cik (cik : value) : option string :=
  match cik with
  | VStr s => Some (lstrip0 s)
  | _ => None
  end.

(** [tickers_mapping.get(trimmed_cik, [])]; the mapping has string keys only,
    so the key [None] is never found. *)
Definition matching_tickers (tickers_mapping : gmap string (list string))
    (trimmed_cik : option string) : list string :=
  match trimmed_cik with
  | Some k => default [] (tickers_mapping !! k)
  | None => []
  end.

(** [t in l] on a list of strings. *)
Definition str_in (t : string) (l : list string) : bool :=
  existsb (String.eqb t) l.

(** [next((t for t in tickers if t in matching), None)] *)
Definition first_match (tickers matching : list string) : option string :=
  List.find (fun t => str_in t matching) tickers.

(** [matched or "/".join(matching) or UNKNOWN_TICKER_PLACEHOLDER] *)
Definition matched_ticker (tickers matching : list string) : string :=
  str_or (opt_or (first_match tickers matching) (join "/" matching))
         UNKNOWN_TICKER_PLACEHOLDER.

(** ** The flat record *)

Record record : Type := {
  company_name : value;
  cik : value;
  trimmed_cik : option string;
  ticker : string;
  published_date : value;
  title : value;
  link : value;
  description : value;
  form : value;
  filing_date : value;
  file_number : value;
  accession_number : value;
  acceptance_date : value;
  period : value;
  assistant_director : value;
  assigned_sic : value;
  fiscal_year_end : value;
  xbrl_files : value
}.

(** What the generator does for one entry: it yields a record, or prints a
    diagnostic and moves on. *)
Inductive event : Type :=
  | Yield (r : record)
  | Print (msg : string).

(** ** The filtering decision *)

(** [f"{trimmed_cik}"] *)
Definition show_cik (trimmed : option string) : string :=
  match trimmed with
  | Some s => s
  | None => "None"
  end.

Definition msg_not_found (trimmed : option string) : string :=
  "CIK " ++ show_cik trimmed ++
  " not found in tickers mapping, skipping item since we cannot tell " ++
  "whether it comes from one of the specified tickers...".

Definition msg_unmatched (trimmed : option string) : string :=
  "CIK " ++ show_cik trimmed ++
  " could not be matched with any ticker, skipping item ...".

Definition msg_not_requested (matched : string) (trimmed : option string) : string :=
  "Matched ticker(s) " ++ matched ++ " for CIK " ++ show_cik trimmed ++
  " not in specified tickers, skipping item ...".

(** The [if tickers:] block: [None] lets the entry through, [Some msg] is
    [print(msg); continue]. *)
Definition skip_reason (tickers matching : list string) (matched : string)
    (trimmed : option string) : option string :=
  match tickers with
  | [] => None
  | _ :: _ =>
      match matching with
      | [] => Some (msg_not_found trimmed)
      | _ :: _ =>
          if String.eqb matched UNKNOWN_TICKER_PLACEHOLDER
          then Some (msg_unmatched trimmed)
          else if negb (str_in matched tickers)
          then Some (msg_not_requested matched trimmed)
          else None
      end
  end.

(** ** Record construction *)

Definition filing : string := "edgar:xbrlFiling".
Definition files_path : list string :=
  [filing; "edgar:xbrlFiles"; "edgar:xbrlFile"].

Definition newline : string := String (ascii_of_nat 10) EmptyString.

(** The strings of a list of values, as [str.join] demands them. *)
Definition as_str (v : value) : result string :=
  match v with
  | VStr s => Ok s
  | _ => Raise TypeError
  end.

(** Modelled from the spec: [unpack_singleton_list] of [src/utils.py], which
    is not among the sources.  The spec says of the list of URL strings: if
    it has exactly one element it collapses to that single value, otherwise
    it is joined into a newline-separated string. *)
Definition unpack_singleton_list (l : list value) : result value :=
  match l with
  | [x] => Ok x
  | _ => strs ← mapM as_str l; Ok (VStr (join newline strs))
  end.

(** The processing of the files URLs:
    [unpack_singleton_list([f.get("@edgar:url") for f in files_urls])] when
    [files_urls_as_text] is set, [files_urls] itself otherwise. *)
Definition process_files_urls (files_urls_as_text : bool) (files_urls : value)
    : result value :=
  if files_urls_as_text
  then fs ← py_iter files_urls;
       urls ← mapM (fun f => py_get f "@edgar:url") fs;
       unpack_singleton_list urls
  else Ok files_urls.

(** The dictionary literal [parsed_line] followed by the processing of the
    files URLs. *)
Definition build_record (files_urls_as_text : bool) (i cik : value)
    (trimmed : option string) (matched : string) : result record :=
  pub ← py_get i "pubDate";
  ttl ← py_get i "title";
  lnk ← py_get i "link";
  dsc ← py_get i "description";
  files ← process_files_urls files_urls_as_text (safe_get i files_path);
  Ok {| company_name := safe_get i [filing; "edgar:companyName"];
        cik := cik;
        trimmed_cik := trimmed;
        ticker := matched;
        published_date := pub;
        title := ttl;
        link := lnk;
        description := dsc;
        form := safe_get i [filing; "edgar:formType"];
        filing_date := safe_get i [filing; "edgar:filingDate"];
        file_number := safe_get i [filing; "edgar:fileNumber"];
        accession_number := safe_get i [filing; "edgar:accessionNumber"];
        acceptance_date := safe_get i [filing; "edgar:acceptanceDatetime"];
        period := safe_get i [filing; "edgar:period"];
        assistant_director := safe_get i [filing; "edgar:assistantDirector"];
        assigned_sic := safe_get i [filing; "edgar:assignedSic"];
        fiscal_year_end := safe_get i [filing; "edgar:fiscalYearEnd"];
        xbrl_files := files |}.

(** ** The loop body and the generator *)

Definition item_cik (i : value) : value :=
  safe_get i [filing; "edgar:cikNumber"].

Definition item_matching (tickers_mapping : gmap string (list string))
    (i : value) : list string :=
  matching_tickers tickers_mapping (trim_cik (item_cik i)).

(** [matched_ticker_str] of the entry [i]. *)
Definition item_matched (tickers : list string)
    (tickers_mapping : gmap string (list string)) (i : value) : string :=
  matched_ticker tickers (item_matching tickers_mapping i).

(** One iteration of the [for i in items] loop. *)
Definition parse_item (tickers : list string)
    (tickers_mapping : gmap string (list string))
    (files_urls_as_text : bool) (i : value) : result event :=
  let cik := item_cik i in
  let trimmed := trim_cik cik in
  let matching := matching_tickers tickers_mapping trimmed in
  let matched := matched_ticker tickers matching in
  match skip_reason tickers matching matched trimmed with
  | Some msg => Ok (Print msg)
  | None => r ← build_record files_urls_as_text i cik trimmed matched;
            Ok (Yield r)
  end.

(** A run of the generator: what it printed and yielded, in order, and the
    exception that ended it, if any. *)
Record run : Type := {
  events : list event;
  raised : option exn
}.

Fixpoint parse_items (tickers : list string)
    (tickers_mapping : gmap string (list string))
    (files_urls_as_text : bool) (items : list value) : run :=
  match items with
  | [] => {| events := []; raised := None |}
  | i :: rest =>
      match parse_item tickers tickers_mapping files_urls_as_text i with
      | Ok ev =>
          let k := parse_items tickers tickers_mapping files_urls_as_text rest in
          {| events := ev :: events k; raised := raised k |}
      | Raise e => {| events := []; raised := Some e |}
      end
  end.

(** [xmltodict.parse(response.content)["rss"]["channel"]["item"]], iterated;
    [doc] is the parsed document. *)
Definition feed_items (doc : value) : result (list value) :=
  rss ← getitem doc "rss";
  channel ← getitem rss "channel";
  items ← getitem channel "item";
  py_iter items.

Definition parse_rss_feed_data (doc : value) (tickers : list string)
    (tickers_mapping : gmap string (list string))
    (files_urls_as_text : bool) : run :=
  match feed_items doc with
  | Ok items => parse_items tickers tickers_mapping files_urls_as_text items
  | Raise e => {| events := []; raised := Some e |}
  end.

(** The records of a run, in the order they were yielded. *)
Fixpoint yielded (evs : list event) : list record :=
  match evs with
  | [] => []
  | Yield r :: evs' => r :: yielded evs'
  | Print _ :: evs' => yielded evs'
  end.

(** ** Sample data *)

Definition zeta_item : value :=
  VDict [("title", VStr "10-K");
         (filing, VDict [("edgar:companyName", VStr "Zeta Corp");
                         ("edgar:cikNumber", VStr "0001234567")])].

Definition zeta_mapping : gmap string (list string) :=
  {[ "1234567" := ["ZETA"] ]}.

Definition feed_of (items : value) : value :=
  VDict [("rss", VDict [("channel", VDict [("item", items)])])].

(** ** Notions used to state the properties *)

(** The identifier of the entry resolves to nothing: no [cik] string, or a
    trimmed [cik] that is not a key of the mapping. *)
Definition cik_unresolved (tickers_mapping : gmap string (list string))
    (i : value) : Prop :=
  match trim_cik (item_cik i) with
  | Some k => tickers_mapping !! k = None
  | None => True
  end.

(** [c in s] for a character [c]. *)
Fixpoint has_char (c : ascii) (s : string) : bool :=
  match s with
  | EmptyString => false
  | String a s' => Ascii.eqb a c || has_char c s'
  end.

Definition slash : ascii := "/"%char.

(** [n] zero characters. *)
Fixpoint zeros (n : nat) : string :=
  match n with
  | O => EmptyString
  | S n' => String zero_char (zeros n')
  end.

(** [s] begins with the character ['0']. *)
Definition starts_with_zero (s : string) : bool :=
  match s with
  | String c _ => Ascii.eqb c zero_char
  | EmptyString => false
  end.

(** The file descriptors [fs] carry the URL strings [urls], in order. *)
Definition file_urls (fs : list value) (urls : list string) : Prop :=
  Forall2 (fun f u => py_get f "@edgar:url" = Ok (VStr u)) fs urls.

(** The entries the loop runs over; none when the document lacks the path. *)
Definition feed_entries (doc : value) : list value :=
  match feed_items doc with
  | Ok items => items
  | Raise _ => []
  end.

(** [r] is the record the loop body yields for the entry [i]. *)
Definition record_of (tickers : list string)
    (tickers_mapping : gmap string (list string)) (flag : bool)
    (i : value) (r : record) : Prop :=
  parse_item tickers tickers_mapping flag i = Ok (Yield r).

(** [isinstance(v, dict)] *)
Definition is_dict (v : value) : Prop :=
  match v with
  | VDict _ => True
  | _ => False
  end.

(** The record [r] with [v] as its [xbrl_files]. *)
Definition with_xbrl_files (r : record) (v : value) : record :=
  {| company_name := company_name r;
     cik := cik r;
     trimmed_cik := trimmed_cik r;
     ticker := ticker r;
     published_date := published_date r;
     title := title r;
     link := link r;
     description := description r;
     form := form r;
     filing_date := filing_date r;
     file_number := file_number r;
     accession_number := accession_number r;
     acceptance_date := acceptance_date r;
     period := period r;
     assistant_director := assistant_director r;
     assigned_sic := assigned_sic r;
     fiscal_year_end := fiscal_year_end r;
     xbrl_files := v |}.

(** ** Further sample entries *)

Definition pair_mapping : gmap string (list string) :=
  {[ "1" := ["AAA"; "BBB"] ]}.

Definition pair_item : value :=
  VDict [(filing, VDict [("edgar:cikNumber", VStr "0001")])].

Definition one_file_item : value :=
  VDict [(filing, VDict [("edgar:xbrlFiles", VDict [("edgar:xbrlFile",
            VList [VDict [("@edgar:url", VStr "http://x/doc.xml")]])])])].

Definition two_files_item : value :=
  VDict [(filing, VDict [("edgar:xbrlFiles", VDict [("edgar:xbrlFile",
            VList [VDict [("@edgar:url", VStr "url1")];
                   VDict [("@edgar:url", VStr "url2")]])])])].

(** An entry without [cik] and without file list. *)
Definition bare_item : value := VDict [("title", VStr "8-K")].

(** An entry with a [cik] but without the nested file list. *)
Definition no_files_item : value :=
  VDict [(filing, VDict [("edgar:cikNumber", VStr "0001234567")])].

(** An entry whose file list is one descriptor, not a list of descriptors. *)
Definition single_file_item : value :=
  VDict [(filing, VDict [("edgar:cikNumber", VStr "0001234567");
                         ("edgar:xbrlFiles", VDict [("edgar:xbrlFile",
                            VDict [("@edgar:url", VStr "http://x/doc.xml")])])])].

(** ** The identifier resolver of [_fetch_company_tickers] *)

Module Resolver.

Section transform.
Context `{Countable K} {T : Type}.

(** One value of the downloaded registry: a dictionary that may or may not
    have the keys ["cik_str"] and ["ticker"]. *)
Record company_data : Type := {
  cik_str : option K;
  ticker : option T
}.

(** [company_data[key]] *)
Definition field {A : Type} (f : option A) : result A :=
  match f with
  | Some a => Ok a
  | None => Raise KeyError
  end.

(** The body of the [for _, company_data in mapping.items()] loop: a first
    ticker starts the list of its identifier, a later one is appended. *)
Definition group_step (cik_to_company_mapping : gmap K (list T))
    (c : company_data) : result (gmap K (list T)) :=
  k ← field (cik_str c);
  match cik_to_company_mapping !! k with
  | None =>
      t ← field (ticker c);
      Ok (<[k := [t]]> cik_to_company_mapping)
  | Some l =>
      t ← field (ticker c);
      Ok (<[k := (l ++ [t])%list]> cik_to_company_mapping)
  end.

(** The loop, from a given state of [cik_to_company_mapping]. *)
Fixpoint group_from (cik_to_company_mapping : gmap K (list T))
    (companies : list company_data) : result (gmap K (list T)) :=
  match companies with
  | [] => Ok cik_to_company_mapping
  | c :: rest =>
      m ← group_step cik_to_company_mapping c;
      group_from m rest
  end.

(** The transformation of the registry to the [{CIK: [tickers]}] format;
    [companies] are the values of the registry in the order of
    [mapping.items()]. *)
Definition group_tickers (companies : list company_data)
    : result (gmap K (list T)) :=
  group_from ∅ companies.

(** A value of the registry that has both keys. *)
Definition company (p : K * T) : company_data :=
  {| cik_str := Some p.1; ticker := Some p.2 |}.

Definition complete (c : company_data) : Prop :=
  is_Some (cik_str c) ∧ is_Some (ticker c).

(** The tickers registered under [k], in the order of the registry. *)
Fixpoint tickers_for (k : K) (ps : list (K * T)) : list T :=
  match ps with
  | [] => []
  | (k', t) :: ps' =>
      if decide (k' = k) then t :: tickers_for k ps' else tickers_for k ps'
  end.

(** The number of tickers a mapping holds, over all identifiers. *)
Definition total_tickers (m : gmap K (list T)) : nat :=
  map_fold (fun _ l n => (length l + n)%nat) 0%nat m.

(** *** The function [_fetch_company_tickers] around the transformation

    The file system and the network are its environment: [file] is what
    [company_tickers.json] holds, if it exists (the mapping its JSON text
    stands for); [download] is what [requests.get], [raise_for_status] and
    [response.json()] come to, an exception of theirs or the registry.
    Writing the file is taken to succeed. *)

Definition RSS_COMPANY_TICKERS_URL : string :=
  "https://www.sec.gov/files/company_tickers.json".

Definition msg_downloading : string :=
  "Downloading tickers file at " ++ RSS_COMPANY_TICKERS_URL ++ " ...".

Definition msg_transforming : string :=
  "Transforming tickers file to make it more easily usable ...".

Definition msg_saved (path : string) : string :=
  "Successfully saved tickers file to " ++ path ++ ".".

Definition msg_found : string :=
  "Company tickers file found and no refresh requested, skipping download ...".

(** What a call leaves behind: the lines it printed, the file, and the
    exception it ended with, if any, from the download ([inl]) or from the
    transformation ([inr]). *)
Record outcome (E : Type) : Type := {
  printed : list string;
  file_after : option (gmap K (list T));
  failed : option (E + exn)
}.
Arguments printed {E} o.
Arguments file_after {E} o.
Arguments failed {E} o.

Definition fetch_company_tickers {E : Type} (path : string)
    (file : option (gmap K (list T))) (refresh_tickers_mapping : bool)
    (download : E + list company_data) : outcome E :=
  if negb (bool_decide (is_Some file)) || refresh_tickers_mapping
  then
    match download with
    | inl e =>
        {| printed := [msg_downloading];
           file_after := file;
           failed := Some (inl e) |}
    | inr mapping =>
        match group_tickers mapping with
        | Raise e =>
            {| printed := [msg_downloading; msg_transforming];
               file_after := file;
               failed := Some (inr e) |}
        | Ok cik_to_company_mapping =>
            {| printed := [msg_downloading; msg_transforming; msg_saved path];
               file_after := Some cik_to_company_mapping;
               failed := None |}
        end
    end
  else
    {| printed := [msg_found]; file_after := file; failed := None |}.

End transform.

Arguments company_data K T : clear implicits.
Arguments outcome K {_ _} T E.
Arguments printed {K _ _ T E} o.
Arguments file_after {K _ _ T E} o.
Arguments failed {K _ _ T E} o.

End Resolver.

(** ** Membership and the first match *)

Lemma str_in_In (t : string) (l : list string) :
  str_in t l = true ↔ In t l.
Proof.
  unfold str_in. rewrite existsb_exists. split.
  - intros (x & Hx & Heq). apply String.eqb_eq in Heq. by subst.
  - intros Hin. exists t. split; [done | apply String.eqb_refl].
Qed.

Lemma str_in_false (t : string) (l : list string) :
  str_in t l = false ↔ ¬ In t l.
Proof.
  rewrite <- str_in_In. destruct (str_in t l); split; done.
Qed.

Lemma first_match_nil_r (tickers : list string) :
  first_match tickers [] = None.
Proof. induction tickers as [|t ts IH]; [done | apply IH]. Qed.

(** [first_match] returns the first element of the filter list, in filter-list
    order, that belongs to the matching tickers. *)
Lemma first_match_prefix (pre post matching : list string) (t : string) :
  In t matching →
  (∀ u, In u pre → ¬ In u matching) →
  first_match (pre ++ t :: post) matching = Some t.
Proof.
  intros Ht Hpre. unfold first_match.
  induction pre as [|u pre IH]; simpl.
  - apply str_in_In in Ht. by rewrite Ht.
  - assert (str_in u matching = false) as ->.
    { apply str_in_false, Hpre. by left. }
    apply IH. intros v Hv. apply Hpre. by right.
Qed.

Lemma first_match_none (tickers matching : list string) :
  (∀ t, In t tickers → ¬ In t matching) →
  first_match tickers matching = None.
Proof.
  intros H. unfold first_match.
  induction tickers as [|u ts IH]; simpl; [done |].
  assert (str_in u matching = false) as ->.
  { apply str_in_false, H. by left. }
  apply IH. intros v Hv. apply H. by right.
Qed.

Lemma first_match_some (tickers matching : list string) (t : string) :
  first_match tickers matching = Some t → In t tickers ∧ In t matching.
Proof.
  unfold first_match. intros H. apply find_some in H as [H1 H2].
  split; [done | by apply str_in_In].
Qed.

Lemma str_or_nonempty (a b : string) : a ≠ "" → str_or a b = a.
Proof.
  intros Ha. unfold str_or. destruct (String.eqb_spec a ""); congruence.
Qed.

Lemma matched_ticker_nil (tickers : list string) :
  matched_ticker tickers [] = UNKNOWN_TICKER_PLACEHOLDER.
Proof. unfold matched_ticker. by rewrite first_match_nil_r. Qed.

Lemma matched_ticker_first (tickers matching : list string) (t : string) :
  first_match tickers matching = Some t → t ≠ "" →
  matched_ticker tickers matching = t.
Proof.
  intros Hf Ht. unfold matched_ticker. rewrite Hf. simpl.
  rewrite (str_or_nonempty t (join "/" matching) Ht).
  by apply str_or_nonempty.
Qed.

(** The matched ticker is never the empty string. *)
Lemma matched_ticker_nonempty (tickers matching : list string) :
  matched_ticker tickers matching ≠ "".
Proof.
  unfold matched_ticker, str_or at 1.
  destruct (String.eqb_spec (opt_or (first_match tickers matching)
                                    (join "/" matching)) ""); [done | done].
Qed.

(** ** The filtering decision, characterised *)

Lemma skip_reason_no_filter (matching : list string) (matched : string)
    (trimmed : option string) :
  skip_reason [] matching matched trimmed = None.
Proof. reflexivity. Qed.

(** Under a filter, an entry gets through exactly when its matched ticker is a
    requested one and is not the placeholder. *)
Lemma skip_reason_none (tickers matching : list string) (trimmed : option string) :
  tickers ≠ [] →
  skip_reason tickers matching (matched_ticker tickers matching) trimmed = None
  ↔ In (matched_ticker tickers matching) tickers
    ∧ matched_ticker tickers matching ≠ UNKNOWN_TICKER_PLACEHOLDER.
Proof.
  intros Hne. destruct tickers as [|t0 ts]; [done |].
  destruct matching as [|m0 ms].
  - rewrite matched_ticker_nil. simpl. split; [done | by intros [_ ?]].
  - set (tk := t0 :: ts). set (mt := matched_ticker tk (m0 :: ms)).
    unfold skip_reason. fold tk.
    destruct (String.eqb_spec mt UNKNOWN_TICKER_PLACEHOLDER) as [Heq|Hneq].
    + split; [done | by intros [_ ?]].
    + destruct (str_in mt tk) eqn:Hin; simpl.
      * apply str_in_In in Hin. by split.
      * apply str_in_false in Hin. split; [done | by intros [? _]].
Qed.

Lemma skip_reason_nil_matching (tickers : list string) (matched : string)
    (trimmed : option string) :
  tickers ≠ [] →
  skip_reason tickers [] matched trimmed = Some (msg_not_found trimmed).
Proof. by destruct tickers. Qed.

(** ** Record construction, characterised *)

(** Without the flattening of the file URLs, the record of a dictionary entry
    is always built. *)
Lemma build_record_raw (d : list (string * value)) (c : value)
    (trimmed : option string) (matched : string) :
  ∃ r, build_record false (VDict d) c trimmed matched = Ok r
       ∧ ticker r = matched ∧ trimmed_cik r = trimmed ∧ cik r = c
       ∧ xbrl_files r = safe_get (VDict d) files_path.
Proof. eexists. split; [reflexivity | by simpl]. Qed.

Lemma build_record_fields (flag : bool) (i c : value)
    (trimmed : option string) (matched : string) (r : record) :
  build_record flag i c trimmed matched = Ok r →
  ticker r = matched ∧ trimmed_cik r = trimmed ∧ cik r = c.
Proof.
  unfold build_record. destruct (py_get i "pubDate"); [simpl | done].
  destruct (py_get i "title"); [simpl | done].
  destruct (py_get i "link"); [simpl | done].
  destruct (py_get i "description"); [simpl | done].
  match goal with |- context [mbind _ ?m] => destruct m end; [simpl | done].
  intros [= <-]. by simpl.
Qed.

Lemma mapM_file_urls (fs : list value) (urls : list string) :
  file_urls fs urls →
  mapM (fun f => py_get f "@edgar:url") fs = Ok (map VStr urls).
Proof.
  induction 1 as [|f u fs urls Hf _ IH]; simpl; [done |].
  rewrite Hf. simpl. rewrite IH. done.
Qed.

Lemma mapM_as_str (urls : list string) :
  mapM as_str (map VStr urls) = Ok urls.
Proof. induction urls as [|u urls IH]; simpl; [done |]. by rewrite IH. Qed.

Lemma unpack_urls (urls : list string) :
  unpack_singleton_list (map VStr urls) = Ok (VStr (join newline urls)).
Proof.
  destruct urls as [|u [|v urls]]; [done | done |].
  unfold unpack_singleton_list.
  change (map VStr (u :: v :: urls)) with (VStr u :: map VStr (v :: urls)).
  change (VStr u :: map VStr (v :: urls)) with (map VStr (u :: v :: urls)).
  cbv beta iota. change (VStr u :: VStr v :: map VStr urls)
    with (map VStr (u :: v :: urls)).
  by rewrite mapM_as_str.
Qed.

Lemma process_files_text (fs : list value) (urls : list string) :
  file_urls fs urls →
  process_files_urls true (VList fs) = Ok (VStr (join newline urls)).
Proof.
  intros Hurls. unfold process_files_urls. simpl py_iter.
  change (Ok fs ≫= ?f) with (f fs). cbv beta.
  rewrite (mapM_file_urls fs urls Hurls).
  change (Ok (map VStr urls) ≫= ?f) with (f (map VStr urls)).
  apply unpack_urls.
Qed.

Lemma build_record_text (d : list (string * value)) (c : value)
    (trimmed : option string) (matched : string) (fs : list value)
    (urls : list string) :
  safe_get (VDict d) files_path = VList fs →
  file_urls fs urls →
  ∃ r, build_record true (VDict d) c trimmed matched = Ok r
       ∧ xbrl_files r = VStr (join newline urls).
Proof.
  intros Hfs Hurls. unfold build_record.
  rewrite Hfs, (process_files_text fs urls Hurls).
  eexists. split; reflexivity.
Qed.

(** ** The loop body, characterised *)

Lemma parse_item_kept (tickers : list string)
    (tickers_mapping : gmap string (list string)) (flag : bool) (i : value) :
  skip_reason tickers (item_matching tickers_mapping i)
    (item_matched tickers tickers_mapping i) (trim_cik (item_cik i)) = None →
  parse_item tickers tickers_mapping flag i =
    (r ← build_record flag i (item_cik i) (trim_cik (item_cik i))
           (item_matched tickers tickers_mapping i);
     Ok (Yield r)).
Proof.
  intros H. unfold parse_item.
  fold (item_matching tickers_mapping i).
  fold (item_matched tickers tickers_mapping i). by rewrite H.
Qed.

Lemma parse_item_skipped (tickers : list string)
    (tickers_mapping : gmap string (list string)) (flag : bool) (i : value)
    (msg : string) :
  skip_reason tickers (item_matching tickers_mapping i)
    (item_matched tickers tickers_mapping i) (trim_cik (item_cik i)) = Some msg →
  parse_item tickers tickers_mapping flag i = Ok (Print msg).
Proof.
  intros H. unfold parse_item.
  fold (item_matching tickers_mapping i).
  fold (item_matched tickers tickers_mapping i). by rewrite H.
Qed.

(** A yielded record carries the matched ticker, and the entry was not
    skipped. *)
Lemma parse_item_yield (tickers : list string)
    (tickers_mapping : gmap string (list string)) (flag : bool) (i : value)
    (r : record) :
  parse_item tickers tickers_mapping flag i = Ok (Yield r) →
  skip_reason tickers (item_matching tickers_mapping i)
    (item_matched tickers tickers_mapping i) (trim_cik (item_cik i)) = None
  ∧ build_record flag i (item_cik i) (trim_cik (item_cik i))
      (item_matched tickers tickers_mapping i) = Ok r.
Proof.
  destruct (skip_reason tickers (item_matching tickers_mapping i)
              (item_matched tickers tickers_mapping i)
              (trim_cik (item_cik i))) as [msg|] eqn:Hs.
  - rewrite (parse_item_skipped _ _ _ _ _ Hs). done.
  - rewrite (parse_item_kept _ _ _ _ Hs).
    destruct (build_record _ _ _ _ _) as [r'|e]; simpl; [|done].
    intros [= ->]. done.
Qed.

Lemma unresolved_matching_nil (tickers_mapping : gmap string (list string))
    (i : value) :
  cik_unresolved tickers_mapping i → item_matching tickers_mapping i = [].
Proof.
  unfold cik_unresolved, item_matching, matching_tickers.
  destruct (trim_cik (item_cik i)); [|done]. by intros ->.
Qed.

(** ** Slash-joined fallback strings *)

Lemma has_char_app (c : ascii) (a b : string) :
  has_char c (a ++ String c b) = true.
Proof.
  induction a as [|x a IH]; simpl.
  - by rewrite Ascii.eqb_refl.
  - rewrite IH. apply orb_true_r.
Qed.

Lemma join_slash (matching : list string) :
  (2 ≤ length matching)%nat → has_char slash (join "/" matching) = true.
Proof.
  destruct matching as [|x [|y l]]; simpl; [lia | lia |].
  intros _. apply has_char_app.
Qed.

Lemma has_char_nonempty (c : ascii) (s : string) :
  has_char c s = true → s ≠ "".
Proof. by destruct s. Qed.

(** A fallback string joined from two or more tickers is not a requested
    ticker when no requested ticker contains a slash. *)
Lemma joined_not_requested (tickers matching : list string) :
  (∀ t, In t tickers → has_char slash t = false) →
  (2 ≤ length matching)%nat →
  ¬ In (join "/" matching) tickers.
Proof.
  intros Hno Hlen Hin. apply Hno in Hin.
  rewrite join_slash in Hin; done.
Qed.

Lemma matched_ticker_fallback (tickers matching : list string) :
  (∀ t, In t tickers → ¬ In t matching) →
  (2 ≤ length matching)%nat →
  matched_ticker tickers matching = join "/" matching.
Proof.
  intros Hnone Hlen. unfold matched_ticker.
  rewrite first_match_none by done. simpl.
  apply str_or_nonempty, (has_char_nonempty slash), join_slash, Hlen.
Qed.

(** ** C1: which entries are emitted under a filter *)

(** C1, as stated, fails: with the filter list [["UNKNOWN"]] and an entry
    whose identifier resolves to nothing, [matched_ticker_str] is the
    placeholder ["UNKNOWN"], which is literally a requested ticker, yet the
    entry is skipped; and with the requested ticker ["AAA/BBB"] the
    slash-joined fallback of [["AAA"; "BBB"]] equals it and the entry is
    emitted. *)
Lemma C1_counterexample :
  ¬ ((∃ r, parse_item ["UNKNOWN"] ∅ false (VDict []) = Ok (Yield r))
     ↔ In (item_matched ["UNKNOWN"] ∅ (VDict [])) ["UNKNOWN"])
  ∧ (∃ r, parse_item ["AAA/BBB"] pair_mapping false pair_item = Ok (Yield r)
          ∧ ticker r = join "/" ["AAA"; "BBB"]).
Proof.
  split.
  - intros [_ H]. destruct H as [r Hr]; [by left | discriminate Hr].
  - eexists. split; vm_compute; reflexivity.
Qed.

(** C1 (amended): under a non-empty filter list an entry passes the filter,
    and its record is emitted once built, if and only if [matched_ticker_str]
    is literally one of the requested tickers and is not the UNKNOWN
    placeholder; otherwise it is skipped with a diagnostic.  For a dictionary
    entry the record is always built when the file URLs are not flattened,
    and when they are and the file list is a list of descriptors with URL
    strings, so there emission itself is equivalent to the condition.  A fallback string
    joined from two or more tickers is skipped whenever no requested ticker
    contains a slash. *)
Theorem C1_emitted_iff_requested_and_known (tickers : list string)
    (tickers_mapping : gmap string (list string)) (flag : bool) (i : value) :
  tickers ≠ [] →
  let m := item_matched tickers tickers_mapping i in
  let requested := In m tickers ∧ m ≠ UNKNOWN_TICKER_PLACEHOLDER in
  ((∃ r, parse_item tickers tickers_mapping flag i = Ok (Yield r)) → requested)
  ∧ (requested →
     parse_item tickers tickers_mapping flag i =
       (r ← build_record flag i (item_cik i) (trim_cik (item_cik i)) m;
        Ok (Yield r)))
  ∧ (¬ requested ↔
     ∃ msg, parse_item tickers tickers_mapping flag i = Ok (Print msg))
  ∧ (∀ d, i = VDict d →
     ((∃ r, parse_item tickers tickers_mapping false i = Ok (Yield r))
      ↔ requested))
  ∧ (∀ d fs urls, i = VDict d →
     safe_get i files_path = VList fs → file_urls fs urls →
     ((∃ r, parse_item tickers tickers_mapping true i = Ok (Yield r))
      ↔ requested))
  ∧ ((∀ t, In t tickers → has_char slash t = false) →
     (∀ t, In t tickers → ¬ In t (item_matching tickers_mapping i)) →
     (2 ≤ length (item_matching tickers_mapping i))%nat →
     m = join "/" (item_matching tickers_mapping i)
     ∧ ∃ msg, parse_item tickers tickers_mapping flag i = Ok (Print msg)).
Proof.
  intros Hne m requested.
  pose proof (skip_reason_none tickers (item_matching tickers_mapping i)
                (trim_cik (item_cik i)) Hne) as Hiff.
  fold (item_matched tickers tickers_mapping i) in Hiff. fold m in Hiff.
  fold requested in Hiff.
  assert (∀ fl, (∃ r, parse_item tickers tickers_mapping fl i = Ok (Yield r))
                → requested) as Honly.
  { intros fl [r Hr]. apply parse_item_yield in Hr as [Hs _]. by apply Hiff. }
  assert (∀ fl, ¬ requested ↔
            ∃ msg, parse_item tickers tickers_mapping fl i = Ok (Print msg))
    as Hskip.
  { intros fl. split.
    - intros Hnot.
      destruct (skip_reason tickers (item_matching tickers_mapping i) m
                  (trim_cik (item_cik i))) as [msg|] eqn:Hs.
      + exists msg. by apply parse_item_skipped.
      + destruct Hnot. by apply Hiff.
    - intros [msg Hmsg] Hreq. apply Hiff in Hreq.
      rewrite (parse_item_kept _ _ _ _ Hreq) in Hmsg.
      destruct (build_record _ _ _ _ _); discriminate Hmsg. }
  split; [apply Honly |]. split.
  { intros Hreq. apply parse_item_kept. by apply Hiff. }
  split; [apply Hskip |]. split.
  { intros d ->. split; [apply Honly |].
    intros Hreq. apply Hiff in Hreq.
    rewrite (parse_item_kept _ _ _ _ Hreq).
    destruct (build_record_raw d (item_cik (VDict d))
                (trim_cik (item_cik (VDict d))) m) as (r & Hr & _).
    exists r. unfold m in Hr. by rewrite Hr. }
  split.
  { intros d fs urls -> Hfs Hurls. split; [apply Honly |].
    intros Hreq. apply Hiff in Hreq.
    rewrite (parse_item_kept _ _ _ _ Hreq).
    destruct (build_record_text d (item_cik (VDict d))
                (trim_cik (item_cik (VDict d))) m fs urls Hfs Hurls)
      as (r & Hr & _).
    exists r. unfold m in Hr. by rewrite Hr. }
  intros Hno Hnone Hlen.
  assert (m = join "/" (item_matching tickers_mapping i)) as Hm.
  { by apply matched_ticker_fallback. }
  split; [done |]. apply Hskip. intros [Hin _].
  rewrite Hm in Hin. by apply (joined_not_requested tickers) in Hin.
Qed.

(** The amended C1 at the filter [["CCC"]] and an identifier with the tickers
    [["AAA"; "BBB"]]: the fallback ["AAA/BBB"] is skipped. *)
Lemma C1_witness :
  ["CCC"] ≠ []
  ∧ ∃ msg, parse_item ["CCC"] pair_mapping true pair_item = Ok (Print msg).
Proof.
  split; [done |].
  pose proof (C1_emitted_iff_requested_and_known ["CCC"] pair_mapping true
                pair_item) as Hthm.
  refine (proj2 (proj2 (proj2 (proj2 (proj2 (proj2 (Hthm _))))) _ _ _)).
  - done.
  - intros t [<-|[]]. reflexivity.
  - intros t [<-|[]]. vm_compute. intros [H|[H|[]]]; discriminate H.
  - vm_compute. lia.
Defined.

(** ** C2: a single entry under [rss.channel.item] *)

(** Under a filter, iterating the keys of a single dictionary entry skips
    every one of them: nothing is yielded. *)
Lemma parse_items_keys (tickers : list string)
    (tickers_mapping : gmap string (list string)) (flag : bool)
    (d : list (string * value)) :
  tickers ≠ [] →
  parse_items tickers tickers_mapping flag (map (fun kv => VStr (fst kv)) d) =
    {| events := map (fun _ => Print (msg_not_found None)) d; raised := None |}.
Proof.
  intros Hne. induction d as [|[k v] d IH]; simpl; [done |].
  rewrite (parse_item_skipped tickers tickers_mapping flag (VStr k)
             (msg_not_found None)).
  - by rewrite IH.
  - by apply skip_reason_nil_matching.
Qed.

Lemma yielded_prints (A : Type) (msg : string) (l : list A) :
  yielded (map (fun _ => Print msg) l) = [].
Proof. by induction l. Qed.

(** Whatever the single dictionary entry, the filter and the mapping, a feed
    whose [rss.channel.item] is that entry yields no record under a filter. *)
Lemma single_entry_yields_nothing (tickers : list string)
    (tickers_mapping : gmap string (list string)) (flag : bool)
    (d : list (string * value)) :
  tickers ≠ [] →
  yielded (events (parse_rss_feed_data (feed_of (VDict d)) tickers
                     tickers_mapping flag)) = [].
Proof.
  intros Hne. unfold parse_rss_feed_data, feed_of. simpl.
  rewrite parse_items_keys by done. simpl. apply yielded_prints.
Qed.

(** C2: the code does not wrap a single entry.  The feed whose
    [rss.channel.item] is the one entry [zeta_item] (not a list) is iterated
    key by key: under the filter [["ZETA"]] each key is skipped and no record
    is yielded, and without a filter the run ends in an [AttributeError];
    the same entry in a one-element list yields exactly one record, with
    ticker ["ZETA"] and trimmed cik ["1234567"]. *)
Theorem C2_single_entry_iterated_by_key :
  parse_rss_feed_data (feed_of zeta_item) ["ZETA"] zeta_mapping false =
    {| events := [Print (msg_not_found None); Print (msg_not_found None)];
       raised := None |}
  ∧ yielded (events (parse_rss_feed_data (feed_of zeta_item) ["ZETA"]
                       zeta_mapping false)) = []
  ∧ parse_rss_feed_data (feed_of zeta_item) [] zeta_mapping false =
      {| events := []; raised := Some AttributeError |}
  ∧ (∃ r, parse_rss_feed_data (feed_of (VList [zeta_item])) ["ZETA"]
            zeta_mapping false = {| events := [Yield r]; raised := None |}
          ∧ ticker r = "ZETA" ∧ trimmed_cik r = Some "1234567").
Proof.
  split; [by vm_compute |]. split; [by vm_compute |].
  split; [by vm_compute |].
  eexists. split; [by vm_compute |]. split; reflexivity.
Qed.

(** ** C3: the tie-break among requested tickers *)

(** C3, as stated, fails when the first requested ticker found among the
    matching tickers is the empty string: [or] takes it for a missing match
    and falls through to the joined string and then to the placeholder. *)
Lemma C3_counterexample :
  [""] ≠ []
  ∧ first_match [""] [""] = Some ""
  ∧ matched_ticker [""] [""] = "UNKNOWN"
  ∧ matched_ticker [""] [""] ≠ "".
Proof. repeat split; done. Qed.

(** C3 (amended): when the first ticker of the filter list, in filter-list
    order, that belongs to the entry's matching tickers is a non-empty string,
    [matched_ticker_str] is that ticker, whatever the order of the mapping;
    the filter [["AAA"; "BBB"]] against [["BBB"; "AAA"]] gives ["AAA"]. *)
Theorem C3_first_match_in_filter_order (pre post matching : list string)
    (t : string) :
  In t matching →
  (∀ u, In u pre → ¬ In u matching) →
  t ≠ "" →
  matched_ticker (pre ++ t :: post) matching = t
  ∧ matched_ticker ["AAA"; "BBB"] ["BBB"; "AAA"] = "AAA".
Proof.
  intros Ht Hpre Hne. split; [|reflexivity].
  apply matched_ticker_first; [|done]. by apply first_match_prefix.
Qed.

(** The amended C3 at the filter [["XXX"; "AAA"; "BBB"]] and the matching
    tickers [["BBB"; "AAA"]]. *)
Lemma C3_witness :
  matched_ticker (["XXX"] ++ "AAA" :: ["BBB"]) ["BBB"; "AAA"] = "AAA".
Proof.
  refine (proj1 (C3_first_match_in_filter_order ["XXX"] ["BBB"] ["BBB"; "AAA"]
                   "AAA" _ _ _)).
  - right. by left.
  - intros u [<-|[]] [H|[H|[]]]; discriminate H.
  - discriminate.
Defined.

(** ** C4: no filter *)

(** With an empty filter list the filtering logic never discards an
    entry.  The loop body goes straight to the construction of the record and
    is never a skip; the record of a dictionary entry is always yielded when
    the file URLs are not flattened, and also when they are and the file list
    is a list of descriptors with URL strings; every yielded record carries
    [matched_ticker_str], and when the identifier resolves to nothing (no
    [cik], or a trimmed [cik] absent from the mapping) that is the UNKNOWN
    placeholder. *)
Lemma no_filter_never_skips
    (tickers_mapping : gmap string (list string)) (flag : bool) (i : value) :
  parse_item [] tickers_mapping flag i =
    (r ← build_record flag i (item_cik i) (trim_cik (item_cik i))
           (item_matched [] tickers_mapping i);
     Ok (Yield r))
  ∧ (∀ msg, parse_item [] tickers_mapping flag i ≠ Ok (Print msg))
  ∧ (∀ d, i = VDict d →
       ∃ r, parse_item [] tickers_mapping false i = Ok (Yield r)
            ∧ ticker r = item_matched [] tickers_mapping i)
  ∧ (∀ d fs urls, i = VDict d →
       safe_get i files_path = VList fs → file_urls fs urls →
       ∃ r, parse_item [] tickers_mapping true i = Ok (Yield r)
            ∧ ticker r = item_matched [] tickers_mapping i)
  ∧ (∀ r, parse_item [] tickers_mapping flag i = Ok (Yield r) →
       ticker r = item_matched [] tickers_mapping i)
  ∧ (cik_unresolved tickers_mapping i →
       item_matched [] tickers_mapping i = UNKNOWN_TICKER_PLACEHOLDER
       ∧ (∀ r, parse_item [] tickers_mapping flag i = Ok (Yield r) →
            ticker r = UNKNOWN_TICKER_PLACEHOLDER)
       ∧ (∀ d, i = VDict d →
            ∃ r, parse_item [] tickers_mapping false i = Ok (Yield r)
                 ∧ ticker r = UNKNOWN_TICKER_PLACEHOLDER)).
Proof.
  assert (∀ fl, parse_item [] tickers_mapping fl i =
            (r ← build_record fl i (item_cik i) (trim_cik (item_cik i))
                   (item_matched [] tickers_mapping i);
             Ok (Yield r))) as Hkept.
  { intros fl. apply parse_item_kept, skip_reason_no_filter. }
  assert (∀ r, parse_item [] tickers_mapping flag i = Ok (Yield r) →
            ticker r = item_matched [] tickers_mapping i) as Hticker.
  { intros r Hr. apply parse_item_yield in Hr as [_ Hb].
    by apply build_record_fields in Hb as [? _]. }
  assert (∀ d, i = VDict d →
            ∃ r, parse_item [] tickers_mapping false i = Ok (Yield r)
                 ∧ ticker r = item_matched [] tickers_mapping i) as Hdict.
  { intros d ->. rewrite Hkept.
    destruct (build_record_raw d (item_cik (VDict d))
                (trim_cik (item_cik (VDict d)))
                (item_matched [] tickers_mapping (VDict d)))
      as (r & Hr & Ht & _).
    exists r. by rewrite Hr. }
  split; [apply Hkept |]. split.
  { intros msg. rewrite Hkept. by destruct (build_record _ _ _ _ _). }
  split; [apply Hdict |]. split.
  { intros d fs urls -> Hfs Hurls. rewrite Hkept.
    destruct (build_record_text d (item_cik (VDict d))
                (trim_cik (item_cik (VDict d)))
                (item_matched [] tickers_mapping (VDict d)) fs urls Hfs Hurls)
      as (r & Hr & _).
    exists r. rewrite Hr. split; [done |].
    by apply build_record_fields in Hr as [? _]. }
  split; [apply Hticker |].
  intros Hun.
  assert (item_matched [] tickers_mapping i = UNKNOWN_TICKER_PLACEHOLDER) as Hm.
  { unfold item_matched. rewrite unresolved_matching_nil by done.
    apply matched_ticker_nil. }
  split; [done |]. split.
  - intros r Hr. rewrite <- Hm. by apply Hticker.
  - intros d Hd. destruct (Hdict d Hd) as (r & Hr & Ht).
    exists r. by rewrite <- Hm.
Qed.

(** At an entry without any [cik] and an empty mapping: it is yielded with
    the ticker ["UNKNOWN"]. *)
Lemma no_filter_never_skips_witness :
  cik_unresolved ∅ (VDict [("title", VStr "8-K")])
  ∧ ∃ r, parse_item [] ∅ false (VDict [("title", VStr "8-K")]) = Ok (Yield r)
         ∧ ticker r = "UNKNOWN".
Proof.
  assert (cik_unresolved ∅ (VDict [("title", VStr "8-K")])) as H by exact I.
  split; [exact H |].
  pose proof (no_filter_never_skips ∅ false (VDict [("title", VStr "8-K")]))
    as (_ & _ & _ & _ & _ & Hu).
  exact (proj2 (proj2 (Hu H)) [("title", VStr "8-K")] eq_refl).
Defined.

(** With an empty filter list and [files_urls_as_text] set, a dictionary
    entry that lacks the file list is never yielded: the loop body raises. *)
Lemma no_filter_text_missing_raises
    (tickers_mapping : gmap string (list string)) (d : list (string * value)) :
  safe_get (VDict d) files_path = VNone →
  parse_item [] tickers_mapping true (VDict d) = Raise TypeError.
Proof.
  intros Hfs. rewrite parse_item_kept by apply skip_reason_no_filter.
  unfold build_record. by rewrite Hfs.
Qed.

(** C4: with an empty filter list the code does not emit every entry.  The
    entry [bare_item], whose identifier resolves to nothing, is yielded with
    the ticker UNKNOWN when [files_urls_as_text] is unset; with the flag set
    the loop body raises [TypeError] on its missing file list, and the run
    over a feed that begins with it ends there, before the entry that
    follows. *)
Theorem C4_no_filter_entry_not_emitted :
  cik_unresolved ∅ bare_item
  ∧ (∃ r, parse_item [] ∅ false bare_item = Ok (Yield r)
          ∧ ticker r = UNKNOWN_TICKER_PLACEHOLDER)
  ∧ parse_item [] ∅ true bare_item = Raise TypeError
  ∧ (∀ r, parse_item [] ∅ true bare_item ≠ Ok (Yield r))
  ∧ parse_rss_feed_data (feed_of (VList [bare_item; two_files_item])) [] ∅ true
    = {| events := []; raised := Some TypeError |}.
Proof.
  split; [exact I |]. split.
  { eexists. split; [by vm_compute | reflexivity]. }
  assert (parse_item [] ∅ true bare_item = Raise TypeError) as Hr
    by (by vm_compute).
  split; [exact Hr |]. split.
  - intros r. by rewrite Hr.
  - by vm_compute.
Qed.

(** ** C5: an unresolvable identifier under a filter *)

(** C5: under a non-empty filter list, an entry whose matching ticker set is
    empty (in particular one whose trimmed [cik] is absent from the mapping,
    or that has no [cik]) is skipped with the "not found" diagnostic; nothing
    is yielded for it. *)
Theorem C5_unresolved_skipped (tickers : list string)
    (tickers_mapping : gmap string (list string)) (flag : bool) (i : value) :
  tickers ≠ [] →
  cik_unresolved tickers_mapping i ∨ item_matching tickers_mapping i = [] →
  parse_item tickers tickers_mapping flag i =
    Ok (Print (msg_not_found (trim_cik (item_cik i))))
  ∧ yielded (events (parse_items tickers tickers_mapping flag [i])) = [].
Proof.
  intros Hne Hun.
  assert (item_matching tickers_mapping i = []) as Hnil.
  { destruct Hun as [Hun|Hun]; [by apply unresolved_matching_nil | done]. }
  assert (parse_item tickers tickers_mapping flag i =
            Ok (Print (msg_not_found (trim_cik (item_cik i))))) as Hp.
  { apply parse_item_skipped. rewrite Hnil.
    by apply skip_reason_nil_matching. }
  split; [done |]. simpl. by rewrite Hp.
Qed.

(** C5 at the filter [["ZETA"]] and an entry whose [cik] is not in the
    mapping. *)
Lemma C5_witness :
  parse_item ["ZETA"] zeta_mapping true pair_item =
    Ok (Print (msg_not_found (Some "1"))).
Proof.
  refine (proj1 (C5_unresolved_skipped ["ZETA"] zeta_mapping true pair_item _ _)).
  - done.
  - left. vm_compute. reflexivity.
Defined.

(** ** C6: the trimmed identifier and the lookup *)

Lemma lstrip0_no_zero (t : string) :
  starts_with_zero t = false → lstrip0 t = t.
Proof. destruct t as [|c t]; simpl; [done |]. by intros ->. Qed.

Lemma lstrip0_zeros_app (n : nat) (t : string) :
  starts_with_zero t = false → lstrip0 (zeros n ++ t) = t.
Proof.
  intros Ht. induction n as [|n IH]; simpl.
  - by apply lstrip0_no_zero.
  - apply IH.
Qed.

Lemma lstrip0_decompose (s : string) :
  ∃ n, s = zeros n ++ lstrip0 s ∧ starts_with_zero (lstrip0 s) = false.
Proof.
  induction s as [|c s IH]; simpl.
  - by exists O.
  - destruct (Ascii.eqb c zero_char) eqn:Hc.
    + destruct IH as (n & Hs & Hz). exists (S n). simpl.
      apply Ascii.eqb_eq in Hc. subst c. split; [|done].
      change (String zero_char s = String zero_char (zeros n ++ lstrip0 s)).
      by f_equal.
    + exists O. simpl. by rewrite Hc.
Qed.

Lemma lstrip0_zeros (n : nat) : lstrip0 (zeros n) = "".
Proof. induction n as [|n IH]; [done | apply IH]. Qed.

(** The matching tickers of an entry with a string [cik] are what the mapping
    holds under the trimmed [cik], and nothing else. *)
Lemma item_matching_lookup (tickers_mapping : gmap string (list string))
    (i : value) (s : string) :
  item_cik i = VStr s →
  item_matching tickers_mapping i = default [] (tickers_mapping !! lstrip0 s).
Proof. unfold item_matching. by intros ->. Qed.

(** C6: for a string [cik], [trimmed_cik] is [cik] without its leading ['0']
    characters: [cik] is some zeros followed by [trimmed_cik], which does not
    begin with ['0'], and this determines it; ["0000320193"] gives ["320193"]
    and ["0000000000"] gives the empty string.  The mapping is consulted under
    the key [trimmed_cik] only: two mappings that agree on that key give the
    same matching tickers; and for an all-zero [cik] the lookup is that of the
    key [""] alone: a mapping without that key gives no ticker, whatever its
    other entries. *)
Theorem C6_trimmed_cik_lookup :
  (∀ s, trim_cik (VStr s) = Some (lstrip0 s))
  ∧ (∀ s, ∃ n, s = zeros n ++ lstrip0 s
               ∧ starts_with_zero (lstrip0 s) = false)
  ∧ (∀ n t, starts_with_zero t = false → lstrip0 (zeros n ++ t) = t)
  ∧ lstrip0 "0000320193" = "320193"
  ∧ lstrip0 "0000000000" = ""
  ∧ (∀ (m : gmap string (list string)) i s,
       item_cik i = VStr s →
       item_matching m i = default [] (m !! lstrip0 s))
  ∧ (∀ (m m' : gmap string (list string)) i s,
       item_cik i = VStr s →
       m !! lstrip0 s = m' !! lstrip0 s →
       item_matching m i = item_matching m' i)
  ∧ (∀ (m : gmap string (list string)) i n,
       item_cik i = VStr (zeros n) →
       item_matching m i = default [] (m !! "")
       ∧ (m !! "" = None → item_matching m i = [])).
Proof.
  split; [done |]. split; [apply lstrip0_decompose |].
  split; [apply lstrip0_zeros_app |]. split; [done |]. split; [done |].
  split; [apply item_matching_lookup |]. split.
  - intros m m' i s Hi Heq.
    rewrite (item_matching_lookup m i s Hi), (item_matching_lookup m' i s Hi).
    by rewrite Heq.
  - intros m i n Hi. rewrite (item_matching_lookup m i _ Hi), lstrip0_zeros.
    split; [done |]. by intros ->.
Qed.

(** C6 at an all-zero [cik] and a mapping with the keys ["0"] and ["320193"]
    but not [""]: no ticker matches. *)
Lemma C6_witness :
  item_matching (<[ "0" := ["ZERO"] ]> {[ "320193" := ["AAPL"] ]})
    (VDict [(filing, VDict [("edgar:cikNumber", VStr "0000000000")])]) = [].
Proof.
  pose proof C6_trimmed_cik_lookup as (_ & _ & _ & _ & _ & _ & _ & H).
  refine (proj2 (H _ _ 10%nat _) _).
  - reflexivity.
  - vm_compute. reflexivity.
Defined.

(** ** C7: the file URLs as text *)

(** C7: with [files_urls_as_text] set, for an entry whose file list is a list
    of descriptors carrying the URL strings [urls], the record is built and
    its [xbrl_files] is the single URL itself when there is exactly one, and
    the URLs joined by newlines, in their original order, when there are two
    or more; so it is for every record the loop body yields.  One descriptor
    with ["http://x/doc.xml"] gives that very string, and the URLs ["url1"],
    ["url2"] give ["url1"], a newline, ["url2"]. *)
Theorem C7_file_urls_as_text (d : list (string * value)) (c : value)
    (trimmed : option string) (matched : string) (fs : list value)
    (urls : list string) :
  safe_get (VDict d) files_path = VList fs →
  file_urls fs urls →
  (∃ r, build_record true (VDict d) c trimmed matched = Ok r
        ∧ (∀ u, urls = [u] → xbrl_files r = VStr u)
        ∧ ((2 ≤ length urls)%nat → xbrl_files r = VStr (join newline urls)))
  ∧ (∀ tickers tickers_mapping r,
       parse_item tickers tickers_mapping true (VDict d) = Ok (Yield r) →
       (∀ u, urls = [u] → xbrl_files r = VStr u)
       ∧ ((2 ≤ length urls)%nat → xbrl_files r = VStr (join newline urls)))
  ∧ (∃ r, parse_item [] ∅ true one_file_item = Ok (Yield r)
          ∧ xbrl_files r = VStr "http://x/doc.xml")
  ∧ (∃ r, parse_item [] ∅ true two_files_item = Ok (Yield r)
          ∧ xbrl_files r = VStr ("url1" ++ newline ++ "url2")).
Proof.
  intros Hfs Hurls.
  assert (∀ c' t' m' r,
            build_record true (VDict d) c' t' m' = Ok r →
            (∀ u, urls = [u] → xbrl_files r = VStr u)
            ∧ ((2 ≤ length urls)%nat → xbrl_files r = VStr (join newline urls)))
    as Hshape.
  { intros c' t' m' r Hr.
    destruct (build_record_text d c' t' m' fs urls Hfs Hurls) as (r' & Hr' & Hx).
    rewrite Hr in Hr'. injection Hr' as <-.
    split; [by intros u -> | done]. }
  split.
  { destruct (build_record_text d c trimmed matched fs urls Hfs Hurls)
      as (r & Hr & Hx).
    exists r. split; [done |]. by apply (Hshape c trimmed matched). }
  split.
  { intros tickers tickers_mapping r Hr.
    apply parse_item_yield in Hr as [_ Hb]. by apply Hshape in Hb. }
  split; eexists; (split; [by vm_compute | reflexivity]).
Qed.

(** C7 at an entry with the two file descriptors of ["url1"] and ["url2"]. *)
Lemma C7_witness :
  ∃ r, build_record true two_files_item VNone None "UNKNOWN" = Ok r
       ∧ xbrl_files r = VStr (join newline ["url1"; "url2"]).
Proof.
  assert (file_urls [VDict [("@edgar:url", VStr "url1")];
                     VDict [("@edgar:url", VStr "url2")]] ["url1"; "url2"])
    as Hurls by (repeat constructor).
  destruct (proj1 (C7_file_urls_as_text _ VNone None "UNKNOWN" _ _
                     (eq_refl : safe_get two_files_item files_path = VList _)
                     Hurls)) as (r & Hr & _ & H2).
  exists r. split; [exact Hr |]. apply H2. simpl. lia.
Defined.

(** ** C8: record construction on a missing file list *)

(** Without the flattening of the file URLs, no dictionary entry makes the
    loop body raise. *)
Lemma parse_item_raw_total (tickers : list string)
    (tickers_mapping : gmap string (list string)) (d : list (string * value)) :
  ∃ ev, parse_item tickers tickers_mapping false (VDict d) = Ok ev.
Proof.
  unfold parse_item. destruct (skip_reason _ _ _ _); [by eexists |].
  destruct (build_record_raw d (item_cik (VDict d))
              (trim_cik (item_cik (VDict d)))
              (matched_ticker tickers
                 (matching_tickers tickers_mapping
                    (trim_cik (item_cik (VDict d))))))
    as (r & Hr & _).
  rewrite Hr. by eexists.
Qed.

(** With the flattening of the file URLs, the record of a dictionary entry
    that lacks the file list is never built. *)
Lemma build_record_text_missing (d : list (string * value)) (c : value)
    (trimmed : option string) (matched : string) :
  safe_get (VDict d) files_path = VNone →
  build_record true (VDict d) c trimmed matched = Raise TypeError.
Proof. intros Hfs. unfold build_record. by rewrite Hfs. Qed.

(** C8: with [files_urls_as_text] set, the construction of the record raises
    on an entry that lacks the nested file list: [safe_get] gives [None] and
    the comprehension over it is a [TypeError]; a file list that is a single
    descriptor gives an [AttributeError].  The exception ends the whole run:
    the well-formed entry that follows is never reached.  With the flag unset
    the same entries are yielded, [xbrl_files] being [None] for the first. *)
Theorem C8_missing_file_list_raises :
  parse_item [] ∅ true no_files_item = Raise TypeError
  ∧ parse_item ["ZETA"] zeta_mapping true no_files_item = Raise TypeError
  ∧ parse_item [] ∅ true single_file_item = Raise AttributeError
  ∧ parse_rss_feed_data (feed_of (VList [no_files_item; two_files_item])) []
      ∅ true = {| events := []; raised := Some TypeError |}
  ∧ (∃ r1 r2,
       parse_rss_feed_data (feed_of (VList [no_files_item; two_files_item])) []
         ∅ false = {| events := [Yield r1; Yield r2]; raised := None |}
       ∧ xbrl_files r1 = VNone).
Proof.
  split; [by vm_compute |]. split; [by vm_compute |].
  split; [by vm_compute |]. split; [by vm_compute |].
  eexists _, _. split; [by vm_compute | reflexivity].
Qed.

(** ** C9: the order of the yielded records *)

Lemma parse_items_order (tickers : list string)
    (tickers_mapping : gmap string (list string)) (flag : bool)
    (items : list value) :
  ∃ kept, kept `sublist_of` items
          ∧ Forall2 (record_of tickers tickers_mapping flag) kept
              (yielded (events (parse_items tickers tickers_mapping flag items))).
Proof.
  induction items as [|i items (kept & Hsub & Hall)]; simpl.
  - exists []. split; constructor.
  - destruct (parse_item tickers tickers_mapping flag i) as [[r|msg]|e] eqn:Hi;
      simpl.
    + exists (i :: kept). split; [by apply sublist_skip |].
      by apply Forall2_cons.
    + exists kept. split; [by apply sublist_cons | done].
    + exists []. split; [apply sublist_nil_l | constructor].
Qed.

(** C9: the records a run yields are, in order, the records of an
    order-preserving subsequence of the entries of the feed: entries are only
    left out, never reordered. *)
Theorem C9_order_preserved (doc : value) (tickers : list string)
    (tickers_mapping : gmap string (list string)) (flag : bool) :
  ∃ kept, kept `sublist_of` feed_entries doc
          ∧ Forall2 (record_of tickers tickers_mapping flag) kept
              (yielded (events (parse_rss_feed_data doc tickers
                                  tickers_mapping flag))).
Proof.
  unfold parse_rss_feed_data, feed_entries.
  destruct (feed_items doc) as [items|e].
  - apply parse_items_order.
  - exists []. split; constructor.
Qed.

(** ** C10: a ticker that reads like the placeholder *)

Lemma first_match_singleton (tickers : list string) (x : string) :
  In x tickers → first_match tickers [x] = Some x.
Proof.
  unfold first_match. induction tickers as [|t ts IH]; simpl; [done |].
  intros Hin. destruct (String.eqb_spec t x) as [->|Hne]; simpl; [done |].
  apply IH. by destruct Hin.
Qed.

(** C10: when the filter list contains ["UNKNOWN"] and the matching tickers of
    the entry are exactly [["UNKNOWN"]], [matched_ticker_str] is ["UNKNOWN"]
    and the entry is skipped by the comparison with the placeholder, with
    the "could not be matched" diagnostic: the membership test is never
    reached, although it would succeed. *)
Theorem C10_placeholder_ticker_skipped (tickers : list string)
    (tickers_mapping : gmap string (list string)) (flag : bool) (i : value) :
  In "UNKNOWN" tickers →
  item_matching tickers_mapping i = ["UNKNOWN"] →
  item_matched tickers tickers_mapping i = "UNKNOWN"
  ∧ str_in (item_matched tickers tickers_mapping i) tickers = true
  ∧ parse_item tickers tickers_mapping flag i =
      Ok (Print (msg_unmatched (trim_cik (item_cik i)))).
Proof.
  intros Hin Hm.
  assert (item_matched tickers tickers_mapping i = "UNKNOWN") as Hmt.
  { unfold item_matched. rewrite Hm.
    apply matched_ticker_first; [by apply first_match_singleton | done]. }
  split; [done |]. split; [rewrite Hmt; by apply str_in_In |].
  apply parse_item_skipped. rewrite Hmt, Hm.
  destruct tickers; [done | reflexivity].
Qed.

(** C10 at the filter [["UNKNOWN"]] and an identifier whose only ticker is
    ["UNKNOWN"]. *)
Lemma C10_witness :
  parse_item ["UNKNOWN"] {[ "1" := ["UNKNOWN"] ]} false pair_item =
    Ok (Print (msg_unmatched (Some "1"))).
Proof.
  refine (proj2 (proj2 (C10_placeholder_ticker_skipped ["UNKNOWN"]
                          {[ "1" := ["UNKNOWN"] ]} false pair_item _ _))).
  - by left.
  - vm_compute. reflexivity.
Defined.

(** ** The identifier resolver: grouping tickers by identifier *)

Module ResolverFacts.
Import Resolver.

Section transform.
Context `{Countable K} {T : Type}.
Implicit Types (m : gmap K (list T)) (ps : list (K * T)) (k : K).

Lemma group_step_company m (p : K * T) :
  group_step m (company p) =
    Ok (<[p.1 := (default [] (m !! p.1) ++ [p.2])%list]> m).
Proof.
  unfold group_step, company. simpl.
  change (Ok p.1 ≫= ?f) with (f p.1). cbv beta.
  by destruct (m !! p.1).
Qed.

Lemma group_from_lookup ps : ∀ m,
  ∃ m', group_from m (company <$> ps) = Ok m'
        ∧ ∀ k, m' !! k =
               match tickers_for k ps with
               | [] => m !! k
               | l => Some (default [] (m !! k) ++ l)%list
               end.
Proof.
  induction ps as [|[k0 t0] ps IH]; intros m.
  - exists m. split; [done |]. done.
  - rewrite fmap_cons. simpl group_from. rewrite group_step_company.
    change (Ok ?a ≫= ?f) with (f a). cbv beta. simpl fst. simpl snd.
    destruct (IH (<[k0 := (default [] (m !! k0) ++ [t0])%list]> m))
      as (m' & Hm' & Hlook).
    exists m'. split; [done |]. intros k. rewrite Hlook. simpl.
    destruct (decide (k0 = k)) as [->|Hne].
    + rewrite lookup_insert_eq. simpl.
      destruct (tickers_for k ps); [done |].
      by rewrite <- app_assoc.
    + by rewrite lookup_insert_ne.
Qed.

Lemma total_tickers_insert_new m k (l : list T) :
  m !! k = None →
  total_tickers (<[k := l]> m) = (length l + total_tickers m)%nat.
Proof.
  intros Hk. unfold total_tickers.
  apply (map_fold_insert_L (fun _ l n => (length l + n)%nat)); [|done].
  intros. lia.
Qed.

Lemma total_tickers_lookup m k (l : list T) :
  m !! k = Some l →
  total_tickers m = (length l + total_tickers (delete k m))%nat.
Proof.
  intros Hk. unfold total_tickers.
  apply (map_fold_delete_L (fun _ l n => (length l + n)%nat)); [|done].
  intros. lia.
Qed.

Lemma total_tickers_step m (p : K * T) :
  total_tickers (<[p.1 := (default [] (m !! p.1) ++ [p.2])%list]> m) =
    S (total_tickers m).
Proof.
  destruct (m !! p.1) as [l|] eqn:Hl; simpl.
  - rewrite <- insert_delete_eq.
    rewrite total_tickers_insert_new by apply lookup_delete_eq.
    rewrite (total_tickers_lookup m p.1 l Hl), length_app. simpl. lia.
  - by rewrite total_tickers_insert_new.
Qed.

Lemma group_from_total ps : ∀ m m',
  group_from m (company <$> ps) = Ok m' →
  total_tickers m' = (total_tickers m + length ps)%nat.
Proof.
  induction ps as [|p ps IH]; intros m m'.
  - intros [= <-]. simpl. lia.
  - rewrite fmap_cons. simpl group_from. rewrite group_step_company.
    change (Ok ?a ≫= ?f) with (f a). cbv beta.
    intros Hm'. rewrite (IH _ _ Hm'), total_tickers_step. simpl. lia.
Qed.

Lemma group_step_ok m (c : company_data K T) :
  complete c → ∃ m', group_step m c = Ok m'.
Proof.
  destruct c as [[k|] [t|]]; intros [[? Hk] [? Ht]];
    simpl in Hk, Ht; try discriminate.
  unfold group_step. simpl. change (Ok k ≫= ?f) with (f k). cbv beta.
  destruct (m !! k); by eexists.
Qed.

Lemma group_step_incomplete m (c : company_data K T) :
  ¬ complete c → group_step m c = Raise KeyError.
Proof.
  destruct c as [[k|] [t|]]; intros Hc.
  - destruct Hc. split; by eexists.
  - unfold group_step. simpl. change (Ok k ≫= ?f) with (f k). cbv beta.
    by destruct (m !! k).
  - done.
  - done.
Qed.

#[local] Instance complete_dec (c : company_data K T) : Decision (complete c).
Proof. unfold complete. apply _. Defined.

Lemma group_from_ok (cs : list (company_data K T)) : ∀ m,
  Forall complete cs → ∃ m', group_from m cs = Ok m'.
Proof.
  induction cs as [|c cs IH]; intros m Hall; [by eexists |].
  apply Forall_cons in Hall as [Hc Hall].
  destruct (group_step_ok m c Hc) as [m1 Hm1]. simpl. rewrite Hm1.
  apply IH, Hall.
Qed.

Lemma group_from_incomplete (cs : list (company_data K T)) : ∀ m,
  ¬ Forall complete cs → group_from m cs = Raise KeyError.
Proof.
  induction cs as [|c cs IH]; intros m Hnot.
  - destruct Hnot. constructor.
  - simpl. destruct (decide (complete c)) as [Hc|Hc].
    + destruct (group_step_ok m c Hc) as [m1 Hm1]. rewrite Hm1.
      apply IH. intros Hall. apply Hnot. by constructor.
    + by rewrite group_step_incomplete.
Qed.

(** X1: the grouped mapping holds, under each identifier of the registry,
    exactly the tickers registered under it, every occurrence and in the
    order of the registry, and nothing under any other identifier. *)
Theorem group_tickers_lookup ps :
  ∃ m, group_tickers (company <$> ps) = Ok m
       ∧ ∀ k, m !! k = match tickers_for k ps with
                       | [] => None
                       | l => Some l
                       end.
Proof.
  destruct (group_from_lookup ps ∅) as (m & Hm & Hlook).
  exists m. split; [done |]. intros k. rewrite Hlook, lookup_empty. done.
Qed.

(** X2: the grouping neither drops nor merges a ticker: the mapping holds
    as many tickers as the registry has companies, and no identifier is
    stored with an empty list. *)
Theorem group_tickers_total ps :
  ∃ m, group_tickers (company <$> ps) = Ok m
       ∧ total_tickers m = length ps
       ∧ ∀ k l, m !! k = Some l → l ≠ [].
Proof.
  destruct (group_from_lookup ps ∅) as (m & Hm & Hlook).
  exists m. split; [done |]. split.
  - unfold group_tickers in Hm. rewrite (group_from_total ps ∅ m Hm).
    unfold total_tickers. by rewrite map_fold_empty.
  - intros k l Hk. rewrite Hlook, lookup_empty in Hk.
    destruct (tickers_for k ps); by simplify_eq.
Qed.

(** X3: the transformation succeeds exactly when every company of the
    registry has both keys; a company without ["cik_str"] or ["ticker"]
    makes it raise [KeyError], and no mapping results. *)
Theorem group_tickers_ok_iff (cs : list (company_data K T)) :
  (Forall complete cs ↔ ∃ m, group_tickers cs = Ok m)
  ∧ (¬ Forall complete cs ↔ group_tickers cs = Raise KeyError).
Proof.
  unfold group_tickers.
  destruct (decide (Forall complete cs)) as [Hall|Hnot].
  - destruct (group_from_ok cs ∅ Hall) as [m Hm]. split.
    + split; [by exists m | done].
    + split; [done | by rewrite Hm].
  - pose proof (group_from_incomplete cs ∅ Hnot) as Hr. split.
    + split; [done |]. intros [m Hm]. by rewrite Hr in Hm.
    + split; done.
Qed.

(** X4: the mapping depends on the registry only through the tickers of
    each identifier in their order of appearance: two registries that agree
    on those give the same mapping, however the companies of different
    identifiers are interleaved. *)
Theorem group_tickers_per_identifier ps ps' :
  (∀ k, tickers_for k ps = tickers_for k ps') →
  group_tickers (company <$> ps) = group_tickers (company <$> ps').
Proof.
  intros Hsame. unfold group_tickers.
  destruct (group_from_lookup ps ∅) as (m & -> & Hm).
  destruct (group_from_lookup ps' ∅) as (m' & -> & Hm').
  f_equal. apply map_eq. intros k. by rewrite Hm, Hm', Hsame.
Qed.

(** X17: a call of [_fetch_company_tickers] that returns leaves a mapping
    file behind, the one that was there or the grouping of the downloaded
    registry; a call that raises, in the download or in the transformation,
    leaves the file as it was, and never reports a saved file.  With a file
    present and no refresh requested, the download is not consulted. *)
Theorem fetch_company_tickers_file {E : Type} (path : string)
    (file : option (gmap K (list T))) (refresh : bool)
    (download : E + list (company_data K T)) :
  let o := fetch_company_tickers path file refresh download in
  (failed o = None →
     is_Some (file_after o)
     ∧ (file_after o = file ∧ printed o = [msg_found]
        ∨ ∃ cs m, download = inr cs
                  ∧ group_tickers cs = Ok m
                  ∧ file_after o = Some m))
  ∧ (is_Some (failed o) →
       file_after o = file ∧ ¬ In (msg_saved path) (printed o))
  ∧ (is_Some file → refresh = false →
       ∀ download', fetch_company_tickers path file refresh download' = o).
Proof.
  unfold fetch_company_tickers.
  destruct file as [m|], refresh; simpl.
  - destruct download as [e|cs]; simpl.
    + split; [done |]. split; [|done]. intros _. split; [done |].
      intros [Hin|[]]. discriminate Hin.
    + destruct (group_tickers cs) as [m'|e] eqn:Hg; simpl.
      * split; [|split; [by intros [? ?] | done]].
        intros _. split; [by eexists |]. right. by exists cs, m'.
      * split; [done |]. split; [|done]. intros _. split; [done |].
        intros [Hin|[Hin|[]]]; discriminate Hin.
  - split; [|split; [by intros [? ?] | done]].
    intros _. split; [by eexists | by left].
  - destruct download as [e|cs]; simpl.
    + split; [done |]. split; [|by intros [? ?]]. intros _. split; [done |].
      intros [Hin|[]]. discriminate Hin.
    + destruct (group_tickers cs) as [m'|e] eqn:Hg; simpl.
      * split; [|split; [by intros [? ?] | by intros [? ?]]].
        intros _. split; [by eexists |]. right. by exists cs, m'.
      * split; [done |]. split; [|by intros [? ?]]. intros _.
        split; [done |]. intros [Hin|[Hin|[]]]; discriminate Hin.
  - destruct download as [e|cs]; simpl.
    + split; [done |]. split; [|by intros [? ?]]. intros _. split; [done |].
      intros [Hin|[]]. discriminate Hin.
    + destruct (group_tickers cs) as [m'|e] eqn:Hg; simpl.
      * split; [|split; [by intros [? ?] | by intros [? ?]]].
        intros _. split; [by eexists |]. right. by exists cs, m'.
      * split; [done |]. split; [|by intros [? ?]]. intros _.
        split; [done |]. intros [Hin|[Hin|[]]]; discriminate Hin.
Qed.

End transform.

(** X17 at a refresh whose registry has a company without ticker: the file
  is left as it was. *)
Lemma fetch_company_tickers_file_witness :
file_after (fetch_company_tickers (E := unit) "company_tickers.json"
              (Some {[ 1%nat := ["A"] ]}) true
              (inr [company (1%nat, "A");
                    {| cik_str := Some 2%nat; ticker := None |}]))
= Some {[ 1%nat := ["A"] ]}.
Proof.
refine (proj1 (proj1 (proj2 (fetch_company_tickers_file (E := unit)
  "company_tickers.json" (Some {[ 1%nat := ["A"] ]}) true
  (inr [company (1%nat, "A");
        {| cik_str := Some 2%nat; ticker := None |}]))) _)).
vm_compute. by eexists.
Defined.

(** X4 at two registries that interleave the companies of the identifiers
  [1] and [2] differently. *)
Lemma group_tickers_per_identifier_witness :
group_tickers (company <$> [(1%nat, "A"); (2%nat, "B"); (1%nat, "C")]) =
group_tickers (company <$> [(1%nat, "A"); (1%nat, "C"); (2%nat, "B")]).
Proof.
apply group_tickers_per_identifier.
intros k. simpl. repeat case_decide; congruence.
Defined.

End ResolverFacts.

(** ** Runs of the generator *)

Lemma parse_items_cons_ok (tickers : list string)
    (tickers_mapping : gmap string (list string)) (flag : bool) (i : value)
    (items : list value) (ev : event) :
  parse_item tickers tickers_mapping flag i = Ok ev →
  parse_items tickers tickers_mapping flag (i :: items) =
    {| events := ev :: events (parse_items tickers tickers_mapping flag items);
       raised := raised (parse_items tickers tickers_mapping flag items) |}.
Proof. intros Hi. simpl. by rewrite Hi. Qed.

Lemma parse_items_no_raise_length (tickers : list string)
    (tickers_mapping : gmap string (list string)) (flag : bool)
    (items : list value) :
  raised (parse_items tickers tickers_mapping flag items) = None →
  length (events (parse_items tickers tickers_mapping flag items))
  = length items.
Proof.
  induction items as [|i items IH]; simpl; [done |].
  destruct (parse_item tickers tickers_mapping flag i) as [ev|e]; simpl;
    [|done].
  intros Hr. by rewrite IH.
Qed.

(** X5: every entry the loop gets through leaves exactly one trace, a
    yielded record or a printed diagnostic: a run that ends without an
    exception has as many events as the feed has entries, and a run never has
    more; no entry is dropped silently. *)
Theorem events_account_for_entries (tickers : list string)
    (tickers_mapping : gmap string (list string)) (flag : bool)
    (items : list value) :
  (raised (parse_items tickers tickers_mapping flag items) = None
   ↔ length (events (parse_items tickers tickers_mapping flag items))
     = length items)
  ∧ (length (events (parse_items tickers tickers_mapping flag items))
     ≤ length items)%nat.
Proof.
  induction items as [|i items [IH1 IH2]]; simpl; [done |].
  destruct (parse_item tickers tickers_mapping flag i) as [ev|e]; simpl.
  - split; [|lia]. rewrite IH1. split; [by intros -> | by intros [= ?]].
  - split; [|lia]. split; done.
Qed.

(** X6: a run over two stretches of entries is the run over the first
    followed by the run over the second, unless the first raised: then the
    run is that of the first stretch alone, and no later entry is reached. *)
Theorem parse_items_app (tickers : list string)
    (tickers_mapping : gmap string (list string)) (flag : bool)
    (l1 l2 : list value) :
  parse_items tickers tickers_mapping flag (l1 ++ l2)%list =
    match raised (parse_items tickers tickers_mapping flag l1) with
    | None =>
        {| events :=
             (events (parse_items tickers tickers_mapping flag l1) ++
              events (parse_items tickers tickers_mapping flag l2))%list;
           raised := raised (parse_items tickers tickers_mapping flag l2) |}
    | Some _ => parse_items tickers tickers_mapping flag l1
    end.
Proof.
  induction l1 as [|i l1 IH]; simpl.
  - by destruct (parse_items tickers tickers_mapping flag l2).
  - destruct (parse_item tickers tickers_mapping flag i) as [ev|e]; simpl;
      [|done].
    rewrite IH.
    destruct (raised (parse_items tickers tickers_mapping flag l1)) eqn:Hr;
      simpl; [by rewrite Hr | done].
Qed.

Lemma parse_item_raw_dict (tickers : list string)
    (tickers_mapping : gmap string (list string)) (i : value) :
  is_dict i → ∃ ev, parse_item tickers tickers_mapping false i = Ok ev.
Proof. destruct i; try done. intros _. apply parse_item_raw_total. Qed.

(** X7: when the file URLs are not flattened, a feed whose entries are all
    dictionaries never makes the generator raise, whatever the entries lack:
    every entry is answered by a record or a diagnostic. *)
Theorem raw_run_never_raises (tickers : list string)
    (tickers_mapping : gmap string (list string)) (items : list value) :
  Forall is_dict items →
  raised (parse_items tickers tickers_mapping false items) = None
  ∧ length (events (parse_items tickers tickers_mapping false items))
    = length items.
Proof.
  intros Hall.
  assert (raised (parse_items tickers tickers_mapping false items) = None)
    as Hr.
  { induction Hall as [|i items Hi _ IH]; [done |].
    destruct (parse_item_raw_dict tickers tickers_mapping i Hi) as [ev Hev].
    by rewrite (parse_items_cons_ok _ _ _ _ _ _ Hev). }
  split; [done |]. by apply parse_items_no_raise_length.
Qed.

(** X7 at a feed of three entries, one of them empty, under a filter. *)
Lemma raw_run_never_raises_witness :
  raised (parse_items ["ZETA"] zeta_mapping false
            [zeta_item; VDict []; no_files_item]) = None
  ∧ length (events (parse_items ["ZETA"] zeta_mapping false
                      [zeta_item; VDict []; no_files_item])) = 3%nat.
Proof.
  apply (raw_run_never_raises ["ZETA"] zeta_mapping
           [zeta_item; VDict []; no_files_item]).
  repeat constructor.
Defined.

(** X8: without a filter and without the flattening of the file URLs, a feed
    of dictionary entries yields one record per entry, in the order of the
    feed, and prints nothing. *)
Theorem no_filter_yields_every_entry
    (tickers_mapping : gmap string (list string)) (items : list value) :
  Forall is_dict items →
  ∃ rs, parse_items [] tickers_mapping false items =
          {| events := Yield <$> rs; raised := None |}
        ∧ Forall2 (record_of [] tickers_mapping false) items rs.
Proof.
  induction 1 as [|i items Hi _ (rs & Hrs & Hall)].
  - exists []. split; [done | constructor].
  - destruct i as [| | |d]; try done.
    destruct (build_record_raw d (item_cik (VDict d))
                (trim_cik (item_cik (VDict d)))
                (item_matched [] tickers_mapping (VDict d))) as (r & Hb & _).
    assert (parse_item [] tickers_mapping false (VDict d) = Ok (Yield r))
      as Hr.
    { rewrite parse_item_kept by apply skip_reason_no_filter.
      by rewrite Hb. }
    exists (r :: rs). split; [|by constructor].
    rewrite (parse_items_cons_ok _ _ _ _ _ _ Hr), Hrs. done.
Qed.

(** X8 at a feed of two entries. *)
Lemma no_filter_yields_every_entry_witness :
  ∃ rs, parse_items [] zeta_mapping false [zeta_item; VDict []] =
          {| events := Yield <$> rs; raised := None |}
        ∧ Forall2 (record_of [] zeta_mapping false) [zeta_item; VDict []] rs.
Proof.
  apply (no_filter_yields_every_entry zeta_mapping [zeta_item; VDict []]).
  repeat constructor.
Defined.

(** ** The yielded records *)

Lemma yielded_Forall (P : record → Prop) (tickers : list string)
    (tickers_mapping : gmap string (list string)) (flag : bool) :
  (∀ i r, parse_item tickers tickers_mapping flag i = Ok (Yield r) → P r) →
  ∀ items,
    Forall P (yielded (events (parse_items tickers tickers_mapping flag items))).
Proof.
  intros HP items. induction items as [|i items IH]; simpl; [constructor |].
  destruct (parse_item tickers tickers_mapping flag i) as [[r|msg]|e] eqn:Hi;
    simpl; [|done | constructor].
  constructor; [by apply (HP i) | done].
Qed.

Lemma yielded_feed_Forall (P : record → Prop) (doc : value)
    (tickers : list string) (tickers_mapping : gmap string (list string))
    (flag : bool) :
  (∀ i r, parse_item tickers tickers_mapping flag i = Ok (Yield r) → P r) →
  Forall P (yielded (events (parse_rss_feed_data doc tickers tickers_mapping
                               flag))).
Proof.
  intros HP. unfold parse_rss_feed_data.
  destruct (feed_items doc); [by apply yielded_Forall | constructor].
Qed.

Lemma parse_item_yield_fields (tickers : list string)
    (tickers_mapping : gmap string (list string)) (flag : bool) (i : value)
    (r : record) :
  parse_item tickers tickers_mapping flag i = Ok (Yield r) →
  cik r = item_cik i
  ∧ trimmed_cik r = trim_cik (item_cik i)
  ∧ ticker r = item_matched tickers tickers_mapping i.
Proof.
  intros Hr. apply parse_item_yield in Hr as [_ Hb].
  apply build_record_fields in Hb as (? & ? & ?). done.
Qed.

(** X9: in every record of every run, [trimmed_cik] is [cik] with its leading
    zeros removed ([None] when [cik] is not a string), and [ticker] is a
    non-empty string, the one the filter list and the mapping give for that
    [trimmed_cik]. *)
Theorem yielded_record_invariants (doc : value) (tickers : list string)
    (tickers_mapping : gmap string (list string)) (flag : bool) :
  Forall (fun r =>
            trimmed_cik r = trim_cik (cik r)
            ∧ ticker r ≠ ""
            ∧ ticker r = matched_ticker tickers
                           (matching_tickers tickers_mapping (trimmed_cik r)))
    (yielded (events (parse_rss_feed_data doc tickers tickers_mapping flag))).
Proof.
  apply yielded_feed_Forall. intros i r Hr.
  apply parse_item_yield_fields in Hr as (Hc & Ht & Hm).
  rewrite Hc, Ht, Hm. split; [done |]. split; [|done].
  apply matched_ticker_nonempty.
Qed.

Lemma no_slash_short (matching : list string) :
  has_char slash (join "/" matching) = false →
  matching = [] ∨ ∃ x, matching = [x].
Proof.
  destruct matching as [|x [|y l]]; [by left | right; by exists x |].
  intros Hno. rewrite join_slash in Hno; [done | simpl; lia].
Qed.

(** A requested matched ticker without a slash, other than the placeholder,
    is one of the matching tickers. *)
Lemma matched_in_matching (tickers matching : list string) :
  has_char slash (matched_ticker tickers matching) = false →
  matched_ticker tickers matching ≠ UNKNOWN_TICKER_PLACEHOLDER →
  In (matched_ticker tickers matching) matching.
Proof.
  unfold matched_ticker. intros Hno Hne.
  assert (∀ j, has_char slash (str_or j UNKNOWN_TICKER_PLACEHOLDER) = false →
               str_or j UNKNOWN_TICKER_PLACEHOLDER
                 ≠ UNKNOWN_TICKER_PLACEHOLDER →
               j = join "/" matching →
               In (str_or j UNKNOWN_TICKER_PLACEHOLDER) matching) as Hjoin.
  { intros j Hj Hu ->. unfold str_or in *.
    destruct (String.eqb_spec (join "/" matching) "") as [|Hnemp]; [done |].
    destruct (no_slash_short matching Hj) as [->|[x ->]]; [done |].
    by left. }
  destruct (first_match tickers matching) as [t|] eqn:Hf; simpl in *.
  - destruct (String.eqb_spec t "") as [->|Ht].
    + change (str_or "" (join "/" matching)) with (join "/" matching) in *.
      by apply Hjoin.
    + rewrite (str_or_nonempty t (join "/" matching) Ht).
      rewrite (str_or_nonempty t UNKNOWN_TICKER_PLACEHOLDER Ht).
      by apply first_match_some in Hf as [_ ?].
  - by apply Hjoin.
Qed.

(** X10: the filter is sound.  Under a non-empty filter list none of whose
    tickers contains a slash, every yielded record carries a requested ticker
    that the mapping lists under the record's [trimmed_cik]. *)
Theorem filter_sound (doc : value) (tickers : list string)
    (tickers_mapping : gmap string (list string)) (flag : bool) :
  tickers ≠ [] →
  (∀ t, In t tickers → has_char slash t = false) →
  Forall (fun r =>
            In (ticker r) tickers
            ∧ In (ticker r) (matching_tickers tickers_mapping (trimmed_cik r)))
    (yielded (events (parse_rss_feed_data doc tickers tickers_mapping flag))).
Proof.
  intros Hne Hno. apply yielded_feed_Forall. intros i r Hr.
  pose proof (parse_item_yield_fields _ _ _ _ _ Hr) as (_ & Ht & Hm).
  apply parse_item_yield in Hr as [Hs _].
  apply skip_reason_none in Hs as [Hin Hu]; [|done].
  rewrite Ht, Hm. split; [done |].
  apply matched_in_matching; [by apply Hno | done].
Qed.

(** X10 at the one-entry feed of [zeta_item] under the filter [["ZETA"]],
    file URLs not flattened: one record is yielded, and it is sound. *)
Lemma filter_sound_witness :
  length (yielded (events (parse_rss_feed_data (feed_of (VList [zeta_item]))
                             ["ZETA"] zeta_mapping false))) = 1%nat
  ∧ Forall (fun r =>
              In (ticker r) ["ZETA"]
              ∧ In (ticker r) (matching_tickers zeta_mapping (trimmed_cik r)))
      (yielded (events (parse_rss_feed_data (feed_of (VList [zeta_item]))
                          ["ZETA"] zeta_mapping false))).
Proof.
  split; [by vm_compute |].
  apply filter_sound; [done |].
  intros t [<-|[]]. reflexivity.
Defined.

Lemma first_match_exists (tickers matching : list string) (t : string) :
  In t tickers → In t matching →
  ∃ t', first_match tickers matching = Some t'.
Proof.
  intros Ht Hm. destruct (first_match tickers matching) as [t'|] eqn:Hf;
    [by exists t' |].
  unfold first_match in Hf.
  pose proof (find_none _ _ Hf t Ht) as Hn. simpl in Hn.
  apply str_in_false in Hn. done.
Qed.

(** X11: the filter is complete.  When no requested ticker is empty or the
    placeholder, a dictionary entry whose identifier has at least one
    requested ticker is yielded (file URLs not flattened), with the first such
    ticker in filter-list order. *)
Theorem filter_complete (tickers : list string)
    (tickers_mapping : gmap string (list string))
    (d : list (string * value)) (t : string) :
  (∀ u, In u tickers → u ≠ "" ∧ u ≠ UNKNOWN_TICKER_PLACEHOLDER) →
  In t tickers →
  In t (item_matching tickers_mapping (VDict d)) →
  ∃ r, parse_item tickers tickers_mapping false (VDict d) = Ok (Yield r)
       ∧ first_match tickers (item_matching tickers_mapping (VDict d))
         = Some (ticker r).
Proof.
  intros Hgood Ht Hm.
  destruct (first_match_exists _ _ _ Ht Hm) as [t' Hf].
  pose proof (first_match_some _ _ _ Hf) as [Ht' _].
  destruct (Hgood t' Ht') as [Hne Hu].
  assert (item_matched tickers tickers_mapping (VDict d) = t') as Hmt.
  { by apply matched_ticker_first. }
  assert (tickers ≠ []) as Hnil by (by destruct tickers).
  destruct (build_record_raw d (item_cik (VDict d))
              (trim_cik (item_cik (VDict d))) t') as (r & Hb & Htk & _).
  exists r. rewrite Htk. split; [|done].
  rewrite parse_item_kept.
  - by rewrite Hmt, Hb.
  - apply skip_reason_none; [done |].
    fold (item_matched tickers tickers_mapping (VDict d)). by rewrite Hmt.
Qed.

(** X11 at [pair_item], whose identifier has the tickers [["AAA"; "BBB"]],
    under the filter [["CCC"; "BBB"; "AAA"]]. *)
Lemma filter_complete_witness :
  ∃ r, parse_item ["CCC"; "BBB"; "AAA"] pair_mapping false pair_item
         = Ok (Yield r)
       ∧ first_match ["CCC"; "BBB"; "AAA"]
           (item_matching pair_mapping pair_item) = Some (ticker r).
Proof.
  apply (filter_complete ["CCC"; "BBB"; "AAA"] pair_mapping
           [(filing, VDict [("edgar:cikNumber", VStr "0001")])] "AAA").
  - intros u [<-|[<-|[<-|[]]]]; split; discriminate.
  - right. right. by left.
  - vm_compute. by left.
Defined.

(** ** The flag [files_urls_as_text] *)

Lemma build_record_text_raw (i c : value) (trimmed : option string)
    (matched : string) (r : record) :
  build_record true i c trimmed matched = Ok r →
  build_record false i c trimmed matched =
    Ok (with_xbrl_files r (safe_get i files_path)).
Proof.
  unfold build_record. destruct i as [| | |d]; try done. simpl py_get.
  repeat (change (Ok ?a ≫= ?f) with (f a); cbv beta).
  destruct (process_files_urls true (safe_get (VDict d) files_path));
    [|done].
  intros [= <-]. reflexivity.
Qed.

(** X12: the flag [files_urls_as_text] bears on [xbrl_files] only.  An entry
    is skipped with the flag set exactly when it is skipped without it, with
    the same diagnostic; and a record yielded with the flag set is also
    yielded without it, equal in every field but [xbrl_files], which is then
    the file list as found. *)
Theorem flag_only_changes_xbrl_files (tickers : list string)
    (tickers_mapping : gmap string (list string)) (i : value) :
  (∀ msg, parse_item tickers tickers_mapping true i = Ok (Print msg)
          ↔ parse_item tickers tickers_mapping false i = Ok (Print msg))
  ∧ (∀ r, parse_item tickers tickers_mapping true i = Ok (Yield r) →
          parse_item tickers tickers_mapping false i =
            Ok (Yield (with_xbrl_files r (safe_get i files_path)))).
Proof.
  destruct (skip_reason tickers (item_matching tickers_mapping i)
              (item_matched tickers tickers_mapping i)
              (trim_cik (item_cik i))) as [m|] eqn:Hs.
  - rewrite !(parse_item_skipped _ _ _ _ _ Hs). split; [done |].
    intros r Hr. discriminate Hr.
  - rewrite !(parse_item_kept _ _ _ _ Hs). split.
    + intros msg. split; intros Hm;
        destruct (build_record _ i _ _ _) in Hm; discriminate Hm.
    + intros r Hr.
      destruct (build_record true i _ _ _) as [r'|] eqn:Hb; [|done].
      injection Hr as <-.
      by rewrite (build_record_text_raw _ _ _ _ _ Hb).
Qed.

(** X12 at [two_files_item]: without the flag its record holds the list of
    the two descriptors. *)
Lemma flag_only_changes_xbrl_files_witness :
  ∃ r, parse_item [] ∅ true two_files_item = Ok (Yield r)
       ∧ parse_item [] ∅ false two_files_item =
           Ok (Yield (with_xbrl_files r (safe_get two_files_item files_path))).
Proof.
  eexists. split; [vm_compute; reflexivity |].
  apply (proj2 (flag_only_changes_xbrl_files [] ∅ two_files_item)).
  vm_compute. reflexivity.
Defined.

(** With the flag set, the comprehension [f.get("@edgar:url") for f in
    files_urls] goes through only on a list of dictionaries (or on an empty
    dictionary or string, which have nothing to iterate). *)
Lemma process_files_text_shape (files_urls v : value) :
  process_files_urls true files_urls = Ok v →
  (∃ fs, files_urls = VList fs ∧ Forall is_dict fs)
  ∨ files_urls = VDict [] ∨ files_urls = VStr "".
Proof.
  unfold process_files_urls.
  destruct files_urls as [|s|fs|d]; simpl.
  - done.
  - destruct s; [by right; right | done].
  - intros Hv. left. exists fs. split; [done |].
    change (Ok fs ≫= ?f) with (f fs) in Hv. cbv beta in Hv.
    destruct (mapM (fun f => py_get f "@edgar:url") fs) as [urls|] eqn:Hm;
      [clear Hv | done].
    revert urls Hm. induction fs as [|f fs IH]; intros urls Hm;
      [constructor |].
    simpl in Hm. destruct f; try done. simpl in Hm.
    destruct (mapM (fun f => py_get f "@edgar:url") fs) as [us|] eqn:Hus;
      [|done].
    constructor; [done | by apply (IH us)].
  - destruct d as [|[k x] d]; [by right; left | done].
Qed.

(** X13: with [files_urls_as_text] set, the record of a dictionary entry is
    built only if its file list is a list of dictionaries (or an empty
    dictionary or string).  A missing file list raises [TypeError], and a
    file list that is a single descriptor, a non-empty dictionary, raises
    [AttributeError]. *)
Theorem text_mode_needs_descriptor_list (d : list (string * value))
    (c : value) (trimmed : option string) (matched : string) :
  (∀ r, build_record true (VDict d) c trimmed matched = Ok r →
        (∃ fs, safe_get (VDict d) files_path = VList fs ∧ Forall is_dict fs)
        ∨ safe_get (VDict d) files_path = VDict []
        ∨ safe_get (VDict d) files_path = VStr "")
  ∧ (safe_get (VDict d) files_path = VNone →
     build_record true (VDict d) c trimmed matched = Raise TypeError)
  ∧ (∀ kv rest, safe_get (VDict d) files_path = VDict (kv :: rest) →
     build_record true (VDict d) c trimmed matched = Raise AttributeError).
Proof.
  split; [|split].
  - intros r. unfold build_record. simpl py_get.
    change (Ok ?a ≫= ?f) with (f a). cbv beta.
    destruct (process_files_urls true (safe_get (VDict d) files_path))
      as [v|] eqn:Hp; [|done].
    intros _. by apply (process_files_text_shape _ v).
  - intros Hfs. unfold build_record. by rewrite Hfs.
  - intros [k x] rest Hfs. unfold build_record. by rewrite Hfs.
Qed.

(** X13 at [single_file_item], whose file list is one descriptor. *)
Lemma text_mode_needs_descriptor_list_witness :
  build_record true single_file_item VNone None "UNKNOWN"
    = Raise AttributeError.
Proof.
  refine (proj2 (proj2 (text_mode_needs_descriptor_list
    [(filing, VDict [("edgar:cikNumber", VStr "0001234567");
                     ("edgar:xbrlFiles", VDict [("edgar:xbrlFile",
                        VDict [("@edgar:url", VStr "http://x/doc.xml")])])])]
    VNone None "UNKNOWN")) ("@edgar:url", VStr "http://x/doc.xml") [] _).
  reflexivity.
Defined.

(** ** Leading zeros *)

Lemma lstrip0_zeros_any (n : nat) (s : string) :
  lstrip0 (zeros n ++ s) = lstrip0 s.
Proof. induction n as [|n IH]; [done | apply IH]. Qed.

Lemma lstrip0_idem (s : string) : lstrip0 (lstrip0 s) = lstrip0 s.
Proof.
  destruct (lstrip0_decompose s) as (n & _ & Hz). by apply lstrip0_no_zero.
Qed.

(** X14: the number of leading zeros of [cik] does not matter.  Two entries
    whose [cik] strings differ only in their leading zeros have the same
    [trimmed_cik], the same matching tickers and the same
    [matched_ticker_str]; and trimming a trimmed [cik] changes nothing. *)
Theorem leading_zeros_irrelevant (tickers : list string)
    (tickers_mapping : gmap string (list string)) (i i' : value)
    (n n' : nat) (s : string) :
  item_cik i = VStr (zeros n ++ s) →
  item_cik i' = VStr (zeros n' ++ s) →
  trim_cik (item_cik i) = trim_cik (item_cik i')
  ∧ item_matching tickers_mapping i = item_matching tickers_mapping i'
  ∧ item_matched tickers tickers_mapping i
    = item_matched tickers tickers_mapping i'
  ∧ lstrip0 (lstrip0 s) = lstrip0 s.
Proof.
  intros Hi Hi'.
  assert (trim_cik (item_cik i) = trim_cik (item_cik i')) as Ht.
  { rewrite Hi, Hi'. simpl. by rewrite !lstrip0_zeros_any. }
  unfold item_matched, item_matching. rewrite Ht.
  repeat split. apply lstrip0_idem.
Qed.

(** X14 at the [cik] strings ["0001234567"] and ["1234567"]. *)
Lemma leading_zeros_irrelevant_witness :
  item_matched ["ZETA"] zeta_mapping zeta_item
  = item_matched ["ZETA"] zeta_mapping
      (VDict [(filing, VDict [("edgar:cikNumber", VStr "1234567")])]).
Proof.
  refine (proj1 (proj2 (proj2 (leading_zeros_irrelevant ["ZETA"] zeta_mapping
    zeta_item (VDict [(filing, VDict [("edgar:cikNumber", VStr "1234567")])])
    3 0 "1234567" _ _)))); reflexivity.
Defined.

Lemma trim_cik_no_zero (v : value) (k : string) :
  trim_cik v = Some k → starts_with_zero k = false.
Proof.
  destruct v as [|s| |]; try done. intros [= <-].
  by destruct (lstrip0_decompose s) as (n & _ & Hz).
Qed.

Lemma matching_tickers_insert_zero (tickers_mapping : gmap string (list string))
    (k : string) (l : list string) (v : value) :
  starts_with_zero k = true →
  matching_tickers (<[k := l]> tickers_mapping) (trim_cik v)
  = matching_tickers tickers_mapping (trim_cik v).
Proof.
  intros Hk. destruct (trim_cik v) as [k'|] eqn:Hv; [simpl | done].
  apply trim_cik_no_zero in Hv.
  rewrite lookup_insert_ne; [done | congruence].
Qed.

Lemma parse_item_insert_zero (tickers : list string)
    (tickers_mapping : gmap string (list string)) (flag : bool)
    (k : string) (l : list string) (i : value) :
  starts_with_zero k = true →
  parse_item tickers (<[k := l]> tickers_mapping) flag i
  = parse_item tickers tickers_mapping flag i.
Proof.
  intros Hk. unfold parse_item. by rewrite matching_tickers_insert_zero.
Qed.

(** X15: a key of the mapping that begins with ['0'] is never looked up:
    whatever tickers are stored under it, no entry of any feed resolves to
    them, and the run is the same as without them. *)
Theorem zero_led_key_unreachable (doc : value) (tickers : list string)
    (tickers_mapping : gmap string (list string)) (flag : bool)
    (k : string) (l : list string) :
  starts_with_zero k = true →
  (∀ i, trim_cik (item_cik i) ≠ Some k)
  ∧ parse_rss_feed_data doc tickers (<[k := l]> tickers_mapping) flag
    = parse_rss_feed_data doc tickers tickers_mapping flag.
Proof.
  intros Hk. split.
  - intros i Hi. apply trim_cik_no_zero in Hi. congruence.
  - unfold parse_rss_feed_data. destruct (feed_items doc) as [items|]; [|done].
    induction items as [|i items IH]; simpl; [done |].
    rewrite parse_item_insert_zero by done.
    destruct (parse_item tickers tickers_mapping flag i); [|done].
    by rewrite IH.
Qed.

(** X15 at the key ["0001234567"]: registered with leading zeros, the ticker
    is not found for the entry that has this very [cik]. *)
Lemma zero_led_key_unreachable_witness :
  parse_rss_feed_data (feed_of (VList [zeta_item])) ["ZETA"]
    (<["0001234567" := ["ZETA"]]> ∅) false
  = parse_rss_feed_data (feed_of (VList [zeta_item])) ["ZETA"] ∅ false.
Proof.
  refine (proj2 (zero_led_key_unreachable (feed_of (VList [zeta_item]))
                   ["ZETA"] ∅ false "0001234567" ["ZETA"] _)).
  reflexivity.
Defined.

(** ** The resolver and the transformer together *)

(** X16: for a registry whose identifiers are strings, used as the mapping of
    the transformer: an entry whose [cik] is the identifier [k], which does
    not begin with ['0'], padded with any number of zeros, has as matching
    tickers exactly the tickers the registry lists under [k], in the order of
    the registry; without a filter its record carries them joined by slashes,
    or the placeholder when that string is empty. *)
Theorem resolved_entry_tickers (ps : list (string * string)) (n : nat)
    (k : string) (d : list (string * value)) :
  starts_with_zero k = false →
  item_cik (VDict d) = VStr (zeros n ++ k) →
  ∃ m, Resolver.group_tickers (Resolver.company <$> ps) = Ok m
       ∧ item_matching m (VDict d) = Resolver.tickers_for k ps
       ∧ ∃ r, parse_item [] m false (VDict d) = Ok (Yield r)
              ∧ ticker r = str_or (join "/" (Resolver.tickers_for k ps))
                                  UNKNOWN_TICKER_PLACEHOLDER.
Proof.
  intros Hk Hcik.
  destruct (ResolverFacts.group_from_lookup ps ∅) as (m & Hm & Hlook).
  exists m. split; [exact Hm |].
  assert (item_matching m (VDict d) = Resolver.tickers_for k ps) as Hmatch.
  { rewrite (item_matching_lookup m _ _ Hcik), lstrip0_zeros_app by done.
    rewrite Hlook, lookup_empty. by destruct (Resolver.tickers_for k ps). }
  split; [done |].
  destruct (build_record_raw d (item_cik (VDict d))
              (trim_cik (item_cik (VDict d)))
              (item_matched [] m (VDict d))) as (r & Hb & Ht & _).
  exists r. split.
  - rewrite parse_item_kept by apply skip_reason_no_filter. by rewrite Hb.
  - rewrite Ht. unfold item_matched. by rewrite Hmatch.
Qed.

(** X16 at a registry with two tickers under ["1234567"] and the entry
    [zeta_item]. *)
Lemma resolved_entry_tickers_witness :
  ∃ m, Resolver.group_tickers
         (Resolver.company <$>
            [("1234567", "ZETA"); ("42", "OMEGA"); ("1234567", "ZETB")]) = Ok m
       ∧ item_matching m zeta_item = ["ZETA"; "ZETB"].
Proof.
  destruct (resolved_entry_tickers
              [("1234567", "ZETA"); ("42", "OMEGA"); ("1234567", "ZETB")]
              3 "1234567"
              [("title", VStr "10-K");
               (filing, VDict [("edgar:companyName", VStr "Zeta Corp");
                               ("edgar:cikNumber", VStr "0001234567")])]
              eq_refl eq_refl) as (m & Hm & Hmatch & _).
  exists m. split; [exact Hm | exact Hmatch].
Defined.
